(** * ApressDownloader: a shallow embedding of [apress_downloader.py]

    The script logs into a vendor account, walks the paginated table of
    purchased products, and downloads every format of every product.
    This development embeds the methods of [ApressDownloader] that
    carry logic ([stream_file], [download_product], [login],
    [fetch_products], [start]) and the flow of [main] as functions in a
    state-and-exception monad, and proves properties of them.

    Modelling conventions.
    - Python text (both [str] and [unicode]) is a list of code points
      ([list N]); [u "..."] turns a literal into such a list.
    - The remote site is a function from a request to its response.  The
      HTML of a response is represented by what the selectors used in the
      source return on it (record [soup]).
    - The local disk is a finite map from path strings to nodes.  Paths are
      compared textually; the parent of a path is the text before its last
      slash, and a path without a slash lives in the working directory.
    - Every effect of a method is recorded in the state: requests sent,
      log records emitted, writes performed, and the disk itself. *)

From Stdlib Require Import ZArith NArith Ascii String DecimalString.
From Stdlib Require DecimalPos DecimalZ.
From stdpp Require Import base gmap strings list fin_maps.

Set Default Proof Using "Type".

(* ------------------------------------------------------------------ *)
(** ** Text *)

Abbreviation ustring := (list N).
Abbreviation bytes := (list Byte.byte).

Definition u (s : string) : ustring :=
  map N_of_ascii (list_ascii_of_string s).

(** ["%d" % z] *)
Definition dec (z : Z) : ustring :=
  u (NilZero.string_of_int (Z.to_int z)).

(** [sep.join(parts)] *)
Fixpoint join (sep : ustring) (parts : list ustring) : ustring :=
  match parts with
  | [] => []
  | [p] => p
  | p :: rest => p ++ sep ++ join sep rest
  end.

Definition in_range (lo hi c : N) : bool := (lo <=? c)%N && (c <=? hi)%N.

(** [unicode.lower()]: letter by letter.  The ASCII part is written out;
    the case table for code points from 128 upwards is [unicode_lower]. *)
Definition lower_cp (unicode_lower : N -> N) (c : N) : N :=
  if in_range 65 90 c then (c + 32)%N
  else if (c <? 128)%N then c
  else unicode_lower c.

Definition lower (unicode_lower : N -> N) (s : ustring) : ustring :=
  map (lower_cp unicode_lower) s.

(** [unicode.encode('ascii', 'ignore')]: code points that are not ASCII
    are dropped. *)
Definition is_ascii (c : N) : bool := (c <? 128)%N.

Definition encode_ascii_ignore (s : ustring) : ustring :=
  List.filter is_ascii s.

(** [str.strip()]: leading and trailing white space is removed. *)
Definition is_space (c : N) : bool :=
  in_range 9 13 c || (c =? 32)%N.

Fixpoint lstrip (s : ustring) : ustring :=
  match s with
  | [] => []
  | c :: r => if is_space c then lstrip r else s
  end.

Definition rstrip (s : ustring) : ustring := rev (lstrip (rev s)).

Definition strip (s : ustring) : ustring := rstrip (lstrip s).

(** The character class [-a-zA-Z0-9_+()\[\]] of the pattern in
    [download_product]. *)
Definition allowed (c : N) : bool :=
  (c =? 45)%N || in_range 97 122 c || in_range 65 90 c || in_range 48 57 c
  || (c =? 95)%N || (c =? 43)%N || (c =? 40)%N || (c =? 41)%N
  || (c =? 91)%N || (c =? 93)%N.

Definition disallowed (c : N) : bool := negb (allowed c).

(** [re.sub(r'[cls]+', repl, s)]: scanning from the left, each longest
    stretch of characters of the class is replaced by one [repl].
    [in_match] tells that the previous character was part of a match. *)
Fixpoint re_sub_plus (cls : N -> bool) (repl : ustring) (in_match : bool)
    (s : ustring) : ustring :=
  match s with
  | [] => []
  | c :: r =>
      if cls c
      then (if in_match then [] else repl) ++ re_sub_plus cls repl true r
      else c :: re_sub_plus cls repl false r
  end.

Definition re_sub (cls : N -> bool) (repl s : ustring) : ustring :=
  re_sub_plus cls repl false s.

(** The value of [name] in [download_product]. *)
Definition name_of_title (title : ustring) : ustring :=
  re_sub disallowed (u "_") (strip (encode_ascii_ignore title)).

(** *** The directory name as the specification words it

    "Strip to ASCII (discarding non-ASCII characters), then replace every
    run of characters outside the set with a single underscore."  The
    text is cut into its maximal runs of allowed and of disallowed
    characters, and each disallowed run is rendered as one underscore. *)
Fixpoint runs (s : ustring) : list (bool * ustring) :=
  match s with
  | [] => []
  | c :: r =>
      match runs r with
      | (b, g) :: gs =>
          if Bool.eqb b (allowed c) then (b, c :: g) :: gs
          else (allowed c, [c]) :: (b, g) :: gs
      | [] => [(allowed c, [c])]
      end
  end.

Definition render_run (r : bool * ustring) : ustring :=
  if fst r then snd r else u "_".

Definition replace_runs (s : ustring) : ustring :=
  List.concat (map render_run (runs s)).

Definition spec_dirname (title : ustring) : ustring :=
  replace_runs (encode_ascii_ignore title).

(* ------------------------------------------------------------------ *)
(** ** The world the script runs in *)

Inductive level := DEBUG | INFO | WARNING | ERROR | CRITICAL.

Inductive log_arg :=
| ArgStr (s : ustring)
| ArgInt (z : Z).

(** A call [logger.<lvl>(msg, *args)]. *)
Record log_record := LogRecord {
  lvl : level;
  msg : string;
  args : list log_arg
}.

(** What the selectors of [fetch_products] see of a listing page. *)
Record option_tag := OptionTag {
  opt_text : ustring;             (* opt.text *)
  opt_value : option ustring      (* opt['value'], None if the attribute is absent *)
}.

Record table_row := TableRow {
  row_title : option ustring;     (* row.select_one('td:nth-of-type(3)').text *)
  row_opts : list option_tag      (* row.select('td:nth-of-type(4) option') *)
}.

Record pages_div := PagesDiv {
  next_li : bool                  (* find('li', class_='next') is a tag *)
}.

Record pager_div := PagerDiv {
  pager_pages : option pages_div  (* find('div', class_='pages') *)
}.

Record soup := Soup {
  soup_rows : list table_row;     (* select('table#my-downloadable-products-table tbody tr') *)
  soup_pager : option pager_div   (* find('div', class_='pager') *)
}.

Inductive request :=
| GET (url : ustring) (allow_redirects stream : bool)
| POST (url : ustring) (data : list (ustring * ustring)).

Record response := Response {
  resp_url : ustring;             (* response.url, after redirects *)
  resp_soup : soup;               (* BeautifulSoup(response.text, parser) *)
  resp_chunks : list bytes        (* response.iter_content(chunk_size=1024) *)
}.

Inductive node :=
| File (data : bytes)
| Dir.

Inductive errno := EEXIST | ENOENT | ENOTDIR | EISDIR.

Inductive exn :=
| OSError (e : errno)
| IOError (e : errno)
| KeyError (key : string)
| AttributeError.

Record state := State {
  fs : gmap ustring node;         (* the local disk *)
  sent : list request;            (* requests issued, oldest first *)
  log : list log_record;          (* log records, oldest first *)
  written : list (ustring * bytes) (* fileh.write calls, oldest first *)
}.

(** A product as [fetch_products] builds it: the dict with the keys
    ['title'] and ['links']. *)
Record product := Product {
  title : ustring;
  links : gmap ustring ustring
}.

(* ------------------------------------------------------------------ *)
(** ** The monad: state, exceptions, and running out of loop fuel *)

Inductive result (A : Type) :=
| Ok (a : A)
| Raise (e : exn)
| Diverge.
Arguments Ok {A} a.
Arguments Raise {A} e.
Arguments Diverge {A}.

Definition M (A : Type) : Type := state -> result A * state.

Definition ret {A} (a : A) : M A := fun s => (Ok a, s).

Definition raise {A} (e : exn) : M A := fun s => (Raise e, s).

Definition diverge {A} : M A := fun s => (Diverge, s).

Definition bind {A B} (m : M A) (k : A -> M B) : M B :=
  fun s =>
    match m s with
    | (Ok a, s') => k a s'
    | (Raise e, s') => (Raise e, s')
    | (Diverge, s') => (Diverge, s')
    end.

Declare Scope py_scope.
Delimit Scope py_scope with py.
Notation "x <- m ;; k" := (bind m (fun x => k))
  (at level 100, m at next level, right associativity) : py_scope.
Notation "m ;; k" := (bind m (fun _ => k))
  (at level 100, right associativity) : py_scope.
Open Scope py_scope.

(** [for x in xs: acc = body(x, acc)] *)
Fixpoint for_fold {A B} (body : A -> B -> M B) (xs : list A) (acc : B) : M B :=
  match xs with
  | [] => ret acc
  | x :: rest => acc' <- body x acc ;; for_fold body rest acc'
  end.

(** [for x in xs: body(x)] *)
Fixpoint for_each {A} (body : A -> M unit) (xs : list A) : M unit :=
  match xs with
  | [] => ret tt
  | x :: rest => body x ;; for_each body rest
  end.

(** [[f(x) for x in xs]] *)
Fixpoint for_list {A B} (f : A -> M B) (xs : list A) : M (list B) :=
  match xs with
  | [] => ret []
  | x :: rest => y <- f x ;; ys <- for_list f rest ;; ret (y :: ys)
  end.

(** [try: m except OSError: pass] *)
Definition try_except_OSError (m : M unit) : M unit :=
  fun s =>
    match m s with
    | (Raise (OSError _), s') => (Ok tt, s')
    | r => r
    end.

(* ------------------------------------------------------------------ *)
(** ** Primitives: logging, the network, the disk *)

Definition logger (l : level) (m : string) (a : list log_arg) : M unit :=
  fun s =>
    (Ok tt, {| fs := fs s; sent := sent s;
               log := log s ++ [LogRecord l m a]; written := written s |}).

Definition set_fs (d : gmap ustring node) (s : state) : state :=
  {| fs := d; sent := sent s; log := log s; written := written s |}.

(** The text before the last slash, if there is a slash. *)
Fixpoint parent (p : ustring) : option ustring :=
  match p with
  | [] => None
  | c :: r =>
      match parent r with
      | Some d => Some (c :: d)
      | None => if (c =? 47)%N then Some [] else None
      end
  end.

(** Why a new entry cannot be made at [p], if it cannot. *)
Definition parent_error (d : gmap ustring node) (p : ustring) : option errno :=
  match parent p with
  | None => None
  | Some q =>
      match d !! q with
      | Some Dir => None
      | Some (File _) => Some ENOTDIR
      | None => Some ENOENT
      end
  end.

(** [os.mkdir(p)] on disk [d]. *)
Definition mkdir (d : gmap ustring node) (p : ustring)
    : errno + gmap ustring node :=
  match d !! p with
  | Some _ => inl EEXIST
  | None =>
      match parent_error d p with
      | Some e => inl e
      | None => inr (<[p := Dir]> d)
      end
  end.

Definition os_mkdir (p : ustring) : M unit :=
  fun s =>
    match mkdir (fs s) p with
    | inl e => (Raise (OSError e), s)
    | inr d => (Ok tt, set_fs d s)
    end.

(** [os.path.isfile(p)] *)
Definition isfile (d : gmap ustring node) (p : ustring) : bool :=
  match d !! p with
  | Some (File _) => true
  | _ => false
  end.

Definition os_path_isfile (p : ustring) : M bool :=
  fun s => (Ok (isfile (fs s) p), s).

(** [open(p, 'wb')]: the file is created, or emptied if it is there. *)
Definition open_wb (d : gmap ustring node) (p : ustring)
    : errno + gmap ustring node :=
  match d !! p with
  | Some Dir => inl EISDIR
  | Some (File _) => inr (<[p := File []]> d)
  | None =>
      match parent_error d p with
      | Some e => inl e
      | None => inr (<[p := File []]> d)
      end
  end.

Definition open_file (p : ustring) : M unit :=
  fun s =>
    match open_wb (fs s) p with
    | inl e => (Raise (IOError e), s)
    | inr d => (Ok tt, set_fs d s)
    end.

(** [fileh.write(chunk)] on the file opened at [p]; it returns [None]. *)
Definition append (d : gmap ustring node) (p : ustring) (chunk : bytes)
    : gmap ustring node :=
  match d !! p with
  | Some (File data) => <[p := File (data ++ chunk)]> d
  | _ => d
  end.

Definition file_write (p : ustring) (chunk : bytes) : M unit :=
  fun s =>
    (Ok tt, {| fs := append (fs s) p chunk; sent := sent s; log := log s;
               written := written s ++ [(p, chunk)] |}).

(* ------------------------------------------------------------------ *)
(** ** The methods of [ApressDownloader] *)

Definition login_url : ustring :=
  u "https://www.apress.com/customer/account/login/".

Definition loginPost_url : ustring :=
  u "https://www.apress.com/customer/account/loginPost/".

Definition account_url : ustring :=
  u "https://www.apress.com/customer/account/".

(** ["https://www.apress.com/customer/account/index/?limit=%d&p=%d" % (limit, page)] *)
Definition listing_url (limit page : Z) : ustring :=
  u "https://www.apress.com/customer/account/index/?limit=" ++ dec limit
  ++ u "&p=" ++ dec page.

Definition nonempty {A} (l : list A) : bool :=
  match l with [] => false | _ => true end.

Section Downloader.

(** The remote site, as seen through [self.request]. *)
Variable site : request -> response.
(** [HTMLParser.HTMLParser().unescape] *)
Variable unescape : ustring -> ustring.
(** The lower-case table of Unicode beyond ASCII. *)
Variable unicode_lower : N -> N.
(** [self.overwrite] *)
Variable overwrite : bool.

(** [self.request.get(url, ...)] and [self.request.post(url, data=...)] *)
Definition send (r : request) : M response :=
  fun s =>
    (Ok (site r), {| fs := fs s; sent := sent s ++ [r]; log := log s;
                     written := written s |}).

Definition stream_file (url filename : ustring) : M (list unit) :=
  logger DEBUG "Downloading '%s' to '%s'" [ArgStr url; ArgStr filename] ;;
  response <- send (GET url true true) ;;
  open_file filename ;;
  writes <- for_list (file_write filename)
              (List.filter nonempty (resp_chunks response)) ;;
  ret writes.

(** The body of the loop over [product.get('links').iteritems()].  The
    order in which a dict hands out its items is not fixed by Python; the
    loop below takes them in the order of [map_to_list], and no theorem
    depends on which order that is. *)
Definition download_link (filename : ustring) (item : ustring * ustring)
    : M unit :=
  let '(extension, url) := item in
  let local_file := filename ++ extension in
  present <- os_path_isfile local_file ;;
  if negb present || overwrite
  then stream_file url local_file ;; ret tt
  else logger INFO "   Not re-downloading: %s" [ArgStr local_file].

Definition download_product (p : product) (path : ustring) : M unit :=
  let name := name_of_title (title p) in
  try_except_OSError (os_mkdir (path ++ u "/" ++ name)) ;;
  let filename := path ++ u "/" ++ name ++ u "/" ++ name ++ u "." in
  logger INFO "Downloading: %s as %s.{%s}"
    [ArgStr (title p); ArgStr name;
     ArgStr (join (u "|") (map fst (map_to_list (links p))))] ;;
  for_each (download_link filename) (map_to_list (links p)).

Definition login (username password : ustring) : M bool :=
  logger INFO "Authenticating with Username: %s and Password: %s"
    [ArgStr username; ArgStr (repeat 42%N (length password))] ;;
  let auth := [(u "login[username]", username);
               (u "login[password]", password);
               (u "send", [])] in
  send (GET login_url true false) ;;
  response <- send (POST loginPost_url auth) ;;
  if decide (resp_url response = login_url) then
    logger ERROR "Failed to authenticate with Apress.com" [] ;;
    ret false
  else if decide (resp_url response = account_url) then
    ret true
  else
    logger ERROR "Failed to authenticate with Apress.com, redirected to: %s"
      [ArgStr (resp_url response)] ;;
    ret true.

(** [product['links'][extension] = opt['value']] for one option. *)
Definition add_link (opt : option_tag) (lnk : gmap ustring ustring)
    : M (gmap ustring ustring) :=
  let extension := lower unicode_lower (opt_text opt) in
  match opt_value opt with
  | None => raise (KeyError "value")
  | Some v => ret (<[extension := v]> lnk)
  end.

(** The body of [for row in rows]. *)
Definition parse_row (row : table_row) (products : list product)
    : M (list product) :=
  match row_title row with
  | None =>
      logger WARNING "Couldn't find title in product table row!" [] ;;
      ret products
  | Some title_text =>
      let opts := row_opts row in
      (if nonempty opts then ret tt
       else logger WARNING "Couldn't find list of downloads for '%s'"
              [ArgStr title_text]) ;;
      lnk <- for_fold add_link opts ∅ ;;
      ret (products ++ [Product (unescape title_text) lnk])
  end.

(** [soup.find('div', class_='pager').find('div', class_='pages')] *)
Definition find_pages (sp : soup) : M (option pages_div) :=
  match soup_pager sp with
  | None => raise AttributeError
  | Some d => ret (pager_pages d)
  end.

(** [pager and pager.find('li', class_='next')] *)
Definition has_next (pager : option pages_div) : bool :=
  match pager with
  | Some pg => next_li pg
  | None => false
  end.

(** The [while has_more] loop; [fuel] bounds the number of pages. *)
Fixpoint fetch_loop (fuel : nat) (limit page : Z) (products : list product)
    : M (list product) :=
  match fuel with
  | O => diverge
  | S fuel' =>
      logger INFO "Fetching products page %d..." [ArgInt page] ;;
      response <- send (GET (listing_url limit page) false false) ;;
      let sp := resp_soup response in
      let rows := soup_rows sp in
      if nonempty rows then
        products' <- for_fold parse_row rows products ;;
        pager <- find_pages sp ;;
        if has_next pager
        then fetch_loop fuel' limit (page + 1) products'
        else ret products'
      else
        logger WARNING "Didn't find any products on page %d!" [ArgInt page] ;;
        ret products
  end.

Definition fetch_products (fuel : nat) (limit : Z) : M (list product) :=
  fetch_loop fuel limit 1 [].

End Downloader.

(* ------------------------------------------------------------------ *)
(** ** The rest of the script: [start] and [main] *)

(** [os.path.isdir(p)] *)
Definition isdir (d : gmap ustring node) (p : ustring) : bool :=
  match d !! p with
  | Some Dir => true
  | _ => false
  end.

Definition os_path_isdir (p : ustring) : M bool :=
  fun s => (Ok (isdir (fs s) p), s).

(** [os.makedirs(p)]: if the parent of [p] is not on the disk it is made
    first, in the same way, and an "already exists" from that is let
    pass; then [p] itself is made with [os.mkdir].  [n] bounds the depth;
    the length of the path is enough, as a parent is shorter than its
    child. *)
Fixpoint os_makedirs_n (n : nat) (p : ustring) : M unit :=
  match n, parent p with
  | S n', Some (c :: q) =>
      present <- (fun s => (Ok (bool_decide (is_Some (fs s !! (c :: q)))), s)) ;;
      if present then os_mkdir p
      else
        (fun s =>
           match os_makedirs_n n' (c :: q) s with
           | (Raise (OSError EEXIST), s') => (Ok tt, s')
           | r => r
           end) ;;
        os_mkdir p
  | _, _ => os_mkdir p
  end.

Definition os_makedirs (p : ustring) : M unit := os_makedirs_n (length p) p.

(** The command line as [argparse] hands it to [main]. *)
Record arguments := Arguments {
  arg_username : ustring;
  arg_overwrite : bool;              (* -o / --overwrite *)
  arg_quiet : bool;                  (* -q / --quiet *)
  arg_debug : bool;                  (* -d / --debug *)
  arg_path : ustring;                (* --path, './ebooks' if not given *)
  arg_loglevel : string;             (* --loglevel *)
  arg_parser : string;               (* --parser *)
  arg_password : option ustring      (* --password, None if not given *)
}.

Section Script.

Variable site : request -> response.
Variable unescape : ustring -> ustring.
Variable unicode_lower : N -> N.

(** The [try] block at the head of [start]. *)
Definition ensure_path (path : ustring) : M unit :=
  present <- os_path_isdir path ;;
  if negb present then os_makedirs path else ret tt.

(** What [start] does once the path is there. *)
Definition fetch_and_download (overwrite : bool) (fuel : nat)
    (path : ustring) : M bool :=
  products <- fetch_products site unescape unicode_lower fuel 50 ;;
  logger INFO "Found %d products in your Apress account..."
    [ArgInt (Z.of_nat (length products))] ;;
  for_each (fun product => download_product site overwrite product path)
    products ;;
  ret true.

(** [start(self, path)]; [fuel] bounds the loop of [fetch_products]. *)
Definition start (overwrite : bool) (fuel : nat) (path : ustring) : M bool :=
  fun s =>
    match ensure_path path s with
    | (Ok _, s1) => fetch_and_download overwrite fuel path s1
    | (Raise (OSError _), s1) =>
        (logger ERROR "Could not create / use path: %s" [ArgStr path] ;;
         ret false) s1
    | (Raise e, s1) => (Raise e, s1)
    | (Diverge, s1) => (Diverge, s1)
    end.

(** The password [main] logs in with: the one given on the command line,
    or, if none or an empty one was given, the one typed at the prompt
    of [getpass]. *)
Definition password_of (a : arguments) (typed : ustring) : ustring :=
  match arg_password a with
  | Some (c :: r) => c :: r
  | _ => typed
  end.

(** [main()], from the parsed command line on.  The result is the exit
    status of the process ([sys.exit(2)] and [sys.exit(3)] end their
    branches, and falling off the end gives 0) together with what
    [pprint] has printed, if anything.  Which log records the console
    shows ([setup_logging]) and the SIGINT handler are outside this
    model; the log of the state holds every call of the logger. *)
Definition main (a : arguments) (typed : ustring) (fuel : nat)
    : M (Z * option (list product)) :=
  let password := password_of a typed in
  logger CRITICAL " " [] ;;
  authenticated <- login site (arg_username a) password ;;
  if authenticated then
    if arg_debug a then
      products <- fetch_products site unescape unicode_lower fuel 50 ;;
      logger INFO "Found %d products!" [ArgInt (Z.of_nat (length products))] ;;
      logger INFO "Products:" [] ;;
      ret (0%Z, Some products)
    else
      started <- start (arg_overwrite a) fuel (arg_path a) ;;
      if started then ret (0%Z, None) else ret (2%Z, None)
  else
    logger ERROR "download aborted!" [] ;;
    ret (3%Z, None).

End Script.

(* ------------------------------------------------------------------ *)
(** ** What a listing yields, told without effects

    These functions say, for a parsed page, which products, log records
    and requests [fetch_products] produces when nothing is raised.  They
    are used to state the theorems about the loop. *)

(** The state after the records [l] have been logged. *)
Definition logged (l : list log_record) (s : state) : state :=
  {| fs := fs s; sent := sent s; log := log s ++ l; written := written s |}.

(** The state after the requests [rs] have been sent. *)
Definition requested (rs : list request) (s : state) : state :=
  {| fs := fs s; sent := sent s ++ rs; log := log s; written := written s |}.

Section Listing.

Variable site : request -> response.
Variable unescape : ustring -> ustring.
Variable unicode_lower : N -> N.

Definition listing_request (limit page : Z) : request :=
  GET (listing_url limit page) false false.

(** The page the site serves for page number [page]. *)
Definition page_at (limit page : Z) : soup :=
  resp_soup (site (listing_request limit page)).

Definition opt_valued (o : option_tag) : bool :=
  match opt_value o with Some _ => true | None => false end.

Definition put_link (lnk : gmap ustring ustring) (o : option_tag)
    : gmap ustring ustring :=
  match opt_value o with
  | Some v => <[lower unicode_lower (opt_text o) := v]> lnk
  | None => lnk
  end.

Definition links_of (opts : list option_tag) : gmap ustring ustring :=
  foldl put_link ∅ opts.

Definition row_products (row : table_row) : list product :=
  match row_title row with
  | None => []
  | Some t => [Product (unescape t) (links_of (row_opts row))]
  end.

Definition row_log (row : table_row) : list log_record :=
  match row_title row with
  | None => [LogRecord WARNING "Couldn't find title in product table row!" []]
  | Some t =>
      if nonempty (row_opts row) then []
      else [LogRecord WARNING "Couldn't find list of downloads for '%s'"
              [ArgStr t]]
  end.

(** Reading the row raises nothing: every option of a titled row has a
    [value] attribute. *)
Definition row_ok (row : table_row) : bool :=
  match row_title row with
  | None => true
  | Some _ => forallb opt_valued (row_opts row)
  end.

Definition page_products (sp : soup) : list product :=
  flat_map row_products (soup_rows sp).

Definition page_log (page : Z) (sp : soup) : list log_record :=
  LogRecord INFO "Fetching products page %d..." [ArgInt page]
  :: flat_map row_log (soup_rows sp).

(** The page has product rows, and all of them can be read. *)
Definition rows_ok (sp : soup) : bool :=
  nonempty (soup_rows sp) && forallb row_ok (soup_rows sp).

(** The page has a pager with a "next" item. *)
Definition next_control (sp : soup) : bool :=
  match soup_pager sp with
  | Some d => has_next (pager_pages d)
  | None => false
  end.

(** The page has a pager div, but no "next" item in it. *)
Definition pager_without_next (sp : soup) : bool :=
  match soup_pager sp with
  | Some d => negb (has_next (pager_pages d))
  | None => false
  end.

(** [n] page numbers from [p] on. *)
Fixpoint page_numbers (p : Z) (n : nat) : list Z :=
  match n with
  | O => []
  | S n' => p :: page_numbers (p + 1) n'
  end.

Definition listing_products (limit : Z) (pages : list Z) : list product :=
  flat_map (fun p => page_products (page_at limit p)) pages.

Definition listing_log (limit : Z) (pages : list Z) : list log_record :=
  flat_map (fun p => page_log p (page_at limit p)) pages.

(** The entry [k := v] comes from an option element of a row of a page of
    the listing. *)
Definition link_of_listing (limit : Z) (k v : ustring) : Prop :=
  exists p row o,
    (1 <= p)%Z /\ row ∈ soup_rows (page_at limit p) /\ o ∈ row_opts row
    /\ k = lower unicode_lower (opt_text o) /\ opt_value o = Some v.

(** Pages [p], [p+1], ... ([n] of them) all have readable rows and a
    "next" control. *)
Definition pages_continue (limit p : Z) (n : nat) : Prop :=
  Forall (fun q => rows_ok (page_at limit q) = true
                   /\ next_control (page_at limit q) = true)
    (page_numbers p n).

(** The state after the listing pages [pages] have been fetched and
    read. *)
Definition fetched (limit : Z) (pages : list Z) (s : state) : state :=
  logged (listing_log limit pages)
    (requested (map (listing_request limit) pages) s).

(** The two records logged for a page without product rows. *)
Definition empty_page_log (page : Z) : list log_record :=
  [LogRecord INFO "Fetching products page %d..." [ArgInt page];
   LogRecord WARNING "Didn't find any products on page %d!" [ArgInt page]].

End Listing.

(** *** Names used to state what [download_product] does *)

(** [path + '/' + name] *)
Definition product_dir (path : ustring) (p : product) : ustring :=
  path ++ u "/" ++ name_of_title (title p).

(** ["%s/%s/%s." % (path, name, name)] *)
Definition product_filename (path : ustring) (p : product) : ustring :=
  path ++ u "/" ++ name_of_title (title p) ++ u "/"
  ++ name_of_title (title p) ++ u ".".

Definition downloading_record (p : product) : log_record :=
  LogRecord INFO "Downloading: %s as %s.{%s}"
    [ArgStr (title p); ArgStr (name_of_title (title p));
     ArgStr (join (u "|") (map fst (map_to_list (links p))))].

Definition skip_record (local_file : ustring) : log_record :=
  LogRecord INFO "   Not re-downloading: %s" [ArgStr local_file].

(** Disk [m'] keeps what disk [m] has: directories stay directories,
    files stay files, and no directory appears. *)
Definition disk_kept (m m' : gmap ustring node) : Prop :=
  forall p,
    match m !! p with
    | Some Dir => m' !! p = Some Dir
    | Some (File _) => isfile m' p = true
    | None => m' !! p <> Some Dir
    end.

(* ------------------------------------------------------------------ *)
(** ** Sample sites and disks, for running the methods *)

(** A state with nothing done yet, on disk [d]. *)
Definition init (d : gmap ustring node) : state :=
  {| fs := d; sent := []; log := []; written := [] |}.

Definition no_soup : soup := Soup [] None.

Fixpoint assoc {A} (k : ustring) (l : list (ustring * A)) : option A :=
  match l with
  | [] => None
  | (k', a) :: rest => if decide (k = k') then Some a else assoc k rest
  end.

(** A site that serves the listing pages [pages] (for page size 50, from
    page 1 on), the files [files], and sends a credential POST to
    [final]. *)
Definition serve (pages : list soup) (files : list (ustring * list bytes))
    (final : ustring) (r : request) : response :=
  match r with
  | GET url _ _ =>
      Response url
        (default no_soup
           (assoc url (imap (fun i sp => (listing_url 50 (Z.of_nat (S i)), sp))
                         pages)))
        (default [] (assoc url files))
  | POST _ _ => Response final no_soup []
  end.

Definition pager (next : bool) : option pager_div :=
  Some (PagerDiv (Some (PagesDiv next))).

Definition primer_row : table_row :=
  TableRow (Some (u "C++ Primer: 5th Edition!"))
    [OptionTag (u "PDF") (Some (u "http://x/a"));
     OptionTag (u "EPUB") (Some (u "http://x/b"))].

Definition git_row : table_row :=
  TableRow (Some (u "Pro Git")) [OptionTag (u "PDF") (Some (u "http://x/c"))].

Definition sample_files : list (ustring * list bytes) :=
  [(u "http://x/a",
    [list_byte_of_string "%PDF"; []; list_byte_of_string "-1.4"]);
   (u "http://x/b", [list_byte_of_string "PK"]);
   (u "http://x/c", [])].

(** Two pages; the second has a row without title and one without
    options. *)
Definition two_pages : request -> response :=
  serve [Soup [primer_row] (pager true);
         Soup [TableRow None []; TableRow (Some (u "Pro Git")) []]
           (pager false)]
    sample_files account_url.

(** Three pages with "next" on the first two; the second has no rows. *)
Definition gap_on_page_two : request -> response :=
  serve [Soup [primer_row] (pager true);
         Soup [] (pager true);
         Soup [git_row] (pager false)]
    sample_files account_url.

(** One page with a row and no pager div. *)
Definition no_pager : request -> response :=
  serve [Soup [primer_row] None] sample_files account_url.

(** One page whose only option has an empty label. *)
Definition blank_label : request -> response :=
  serve [Soup [TableRow (Some (u "Pro Git"))
                 [OptionTag [] (Some (u "http://x/c"))]] (pager false)]
    sample_files account_url.

(** A site that answers the credential POST from its front page. *)
Definition front_page : request -> response :=
  serve [] [] (u "https://www.apress.com/").

Definition same_text (s : ustring) : ustring := s.
Definition same_letter (c : N) : N := c.

Definition primer : product :=
  Product (u "C++ Primer: 5th Edition!")
    (<[u "pdf" := u "http://x/a"]> (<[u "epub" := u "http://x/b"]> ∅)).


(** The product read from [blank_label]. *)
Definition blank : product :=
  Product (u "Pro Git") (<[ [] := u "http://x/c" ]> ∅).

(** A disk with the directory [ebooks] and nothing in it. *)
Definition ebooks_disk : gmap ustring node := <[u "ebooks" := Dir]> ∅.

(** Nothing done yet, on an empty disk and on [ebooks_disk]. *)
Definition fresh : state := init ∅.
Definition fresh_ebooks : state := init ebooks_disk.

(** *** Names used to state further properties of the downloads *)

(** The whole body that the site streams for [url]. *)
Definition body_of (site : request -> response) (url : ustring) : bytes :=
  List.concat (resp_chunks (site (GET url true true))).

(** The links that [download_product] streams on disk [d]: those whose
    target is not a file there, or all of them with overwrite on. *)
Definition wanted (overwrite : bool) (d : gmap ustring node)
    (filename : ustring) (items : list (ustring * ustring))
    : list (ustring * ustring) :=
  List.filter (fun item => negb (isfile d (filename ++ fst item)) || overwrite)
    items.

(** Disk [m'] has everything disk [m] has: directories are still
    directories and files are still files. *)
Definition disk_preserved (m m' : gmap ustring node) : Prop :=
  forall p,
    (m !! p = Some Dir -> m' !! p = Some Dir)
    /\ (isfile m p = true -> isfile m' p = true).

(** *** More samples *)

(** A site whose every listing page has a row and a "next" item. *)
Definition endless (r : request) : response :=
  Response [] (Soup [git_row] (pager true)) [].

(** One page whose only option has no value attribute. *)
Definition valueless : request -> response :=
  serve [Soup [TableRow (Some (u "Pro Git")) [OptionTag (u "PDF") None]]
           (pager false)]
    sample_files account_url.

(** A site that sends the credential POST back to the login page. *)
Definition rejecting : request -> response := serve [] [] login_url.

(** A row that offers the same format twice, in two spellings. *)
Definition twice_pdf_row : table_row :=
  TableRow (Some (u "Pro Git"))
    [OptionTag (u "PDF") (Some (u "http://x/a"));
     OptionTag (u "pdf") (Some (u "http://x/c"))].

(** Another title with the directory name of [primer]. *)
Definition primer_reprint : product :=
  Product (u "C++ Primer; 5th Edition?") (<[u "pdf" := u "http://x/c"]> ∅).

(** A disk on which [f] is a file. *)
Definition file_disk : gmap ustring node := <[u "f" := File []]> ∅.
Definition fresh_file : state := init file_disk.

Definition plain_arguments : arguments :=
  Arguments (u "me") false false false (u "ebooks") "info" "html.parser"
    (Some (u "pw")).

Definition debug_arguments : arguments :=
  Arguments (u "me") false false true (u "ebooks") "info" "html.parser" None.

(** Runs are maximal: two neighbours are never of the same kind. *)
Fixpoint alternating (rs : list (bool * ustring)) : Prop :=
  match rs with
  | r1 :: ((r2 :: _) as rest) => fst r1 <> fst r2 /\ alternating rest
  | _ => True
  end.

(* ------------------------------------------------------------------ *)
(** ** Directory names *)

Lemma allowed_underscore : allowed 95 = true.
Proof. reflexivity. Qed.

(** The runs of a text are its pieces, in order. *)
Lemma runs_concat (s : ustring) : List.concat (map snd (runs s)) = s.
Proof.
  induction s as [|c r IH]; [reflexivity|].
  cbn [runs]. destruct (runs r) as [|[b g] gs] eqn:E.
  - cbn in IH. subst r. reflexivity.
  - destruct (Bool.eqb b (allowed c)); cbn in *; congruence.
Qed.

(** Each run is not empty and is all allowed or all disallowed. *)
Lemma runs_uniform (s : ustring) :
  Forall (fun r => snd r <> [] /\ Forall (fun c => allowed c = fst r) (snd r))
    (runs s).
Proof.
  induction s as [|c r IH]; [constructor|].
  cbn [runs]. destruct (runs r) as [|[b g] gs] eqn:E.
  - repeat constructor. discriminate.
  - destruct (Bool.eqb b (allowed c)) eqn:Eb.
    + apply Bool.eqb_prop in Eb. subst b.
      inversion IH as [|? ? [_ Hg] Hgs]; subst.
      constructor; [|assumption]. cbn in *. split; [discriminate|].
      constructor; [reflexivity|assumption].
    + constructor; [|assumption]. cbn. split; [discriminate|].
      repeat constructor.
Qed.

Lemma runs_alternating (s : ustring) : alternating (runs s).
Proof.
  induction s as [|c r IH]; [exact I|].
  cbn [runs]. destruct (runs r) as [|[b g] gs] eqn:E; [exact I|].
  destruct (Bool.eqb b (allowed c)) eqn:Eb.
  - destruct gs; [exact I|]. exact IH.
  - split; [|exact IH]. cbn. intros H. rewrite H in Eb.
    rewrite Bool.eqb_reflx in Eb. discriminate.
Qed.

(** The scanning substitution and the run-by-run rendering agree. *)
Lemma re_sub_plus_runs (s : ustring) :
  re_sub_plus disallowed (u "_") false s = replace_runs s
  /\ re_sub_plus disallowed (u "_") true s =
       match runs s with
       | (false, _) :: gs => List.concat (map render_run gs)
       | _ => replace_runs s
       end.
Proof.
  unfold replace_runs, disallowed.
  induction s as [|c r [IHf IHt]]; [split; reflexivity|].
  cbn [re_sub_plus runs].
  destruct (runs r) as [|[b g] gs] eqn:E.
  - destruct (allowed c) eqn:Ec; cbn in *; rewrite ?IHf, ?IHt; split; reflexivity.
  - destruct (allowed c) eqn:Ec, b; cbn in *; rewrite ?IHf, ?IHt;
      split; reflexivity.
Qed.

Lemma re_sub_replace_runs (s : ustring) :
  re_sub disallowed (u "_") s = replace_runs s.
Proof. apply re_sub_plus_runs. Qed.

Lemma re_sub_plus_allowed (b : bool) (s : ustring) :
  Forall (fun c => allowed c = true) (re_sub_plus disallowed (u "_") b s).
Proof.
  revert b. induction s as [|c r IH]; intros b; [constructor|].
  cbn [re_sub_plus]. unfold disallowed at 1.
  destruct (allowed c) eqn:Ec; cbn [negb].
  - constructor; [assumption|apply IH].
  - destruct b; cbn; [apply IH|].
    constructor; [reflexivity|apply IH].
Qed.

(** C6, as stated, fails: the source strips white space from both ends
    of the ASCII text before substituting, so a title that begins with a
    blank does not get an underscore for it. *)
Lemma name_of_title_not_spec_dirname :
  name_of_title (u " A") = u "A"
  /\ spec_dirname (u " A") = u "_A"
  /\ name_of_title (u " A") <> spec_dirname (u " A").
Proof. repeat split. discriminate. Qed.

(** C6 (amended): the directory name of a title is obtained by
    discarding the non-ASCII characters, stripping white space from both
    ends, and then replacing every maximal run of characters outside
    [[A-Za-z0-9_+()[\]-]] by exactly one underscore; the name contains only
    characters of that set; and "C++ Primer: 5th Edition!" gives
    C++_Primer_5th_Edition_. *)
Theorem name_of_title_runs (t : ustring) :
  name_of_title t = replace_runs (strip (encode_ascii_ignore t))
  /\ Forall (fun c => allowed c = true) (name_of_title t)
  /\ name_of_title (u "C++ Primer: 5th Edition!") = u "C++_Primer_5th_Edition_".
Proof.
  split; [apply re_sub_replace_runs|].
  split; [apply re_sub_plus_allowed|reflexivity].
Qed.

(* ------------------------------------------------------------------ *)
(** ** Reading the rows of a page *)

Lemma logged_logged (l1 l2 : list log_record) (s : state) :
  logged l2 (logged l1 s) = logged (l1 ++ l2) s.
Proof. unfold logged. cbn. rewrite app_assoc. reflexivity. Qed.

Section ListingFacts.

Variable site : request -> response.
Variable unescape : ustring -> ustring.
Variable unicode_lower : N -> N.

Abbreviation add_link := (add_link unicode_lower).
Abbreviation parse_row := (parse_row unescape unicode_lower).
Abbreviation put_link := (put_link unicode_lower).
Abbreviation links_of := (links_of unicode_lower).
Abbreviation row_products := (row_products unescape unicode_lower).

Lemma add_links_ok (opts : list option_tag) (lnk : gmap ustring ustring)
    (s : state) :
  forallb opt_valued opts = true ->
  for_fold add_link opts lnk s = (Ok (foldl put_link lnk opts), s).
Proof.
  revert lnk. induction opts as [|o opts IH]; intros lnk H; [reflexivity|].
  cbn in H. apply andb_prop in H as [Ho Hr].
  cbn [for_fold foldl]. unfold bind, add_link at 1, put_link at 2.
  unfold opt_valued in Ho. destruct (opt_value o); [|discriminate].
  cbn. apply IH, Hr.
Qed.

(** Reading options touches nothing but the mapping being built. *)
Lemma add_links_cases (opts : list option_tag) (lnk : gmap ustring ustring)
    (s : state) :
  (forallb opt_valued opts = true
   /\ for_fold add_link opts lnk s = (Ok (foldl put_link lnk opts), s))
  \/ (forallb opt_valued opts = false
      /\ for_fold add_link opts lnk s = (Raise (KeyError "value"), s)).
Proof.
  revert lnk. induction opts as [|o opts IH]; intros lnk.
  - left. split; reflexivity.
  - cbn [for_fold foldl forallb]. unfold bind, add_link at 1 3, put_link at 2.
    unfold opt_valued at 1 3. destruct (opt_value o); cbn.
    + apply IH.
    + right. split; reflexivity.
Qed.

Lemma parse_row_ok (row : table_row) (acc : list product) (s : state) :
  row_ok row = true ->
  parse_row row acc s = (Ok (acc ++ row_products row), logged (row_log row) s).
Proof.
  unfold row_ok, parse_row, row_products, row_log, logged.
  destruct s as [d rq lg wr].
  destruct row as [[t|] opts]; cbn; intros H.
  - unfold bind. destruct opts as [|o opts].
    + cbn. reflexivity.
    + cbn [nonempty ret]. rewrite (add_links_ok _ _ _ H).
      unfold ret. rewrite app_nil_r. reflexivity.
  - unfold ret. rewrite app_nil_r. reflexivity.
Qed.

Lemma parse_rows_ok (rows : list table_row) (acc : list product) (s : state) :
  forallb row_ok rows = true ->
  for_fold parse_row rows acc s =
    (Ok (acc ++ flat_map row_products rows), logged (flat_map row_log rows) s).
Proof.
  revert acc s. induction rows as [|row rows IH]; intros acc s H.
  - destruct s. unfold logged. cbn. rewrite !app_nil_r. reflexivity.
  - cbn in H. apply andb_prop in H as [Hrow Hrows].
    cbn [for_fold flat_map]. unfold bind at 1.
    rewrite (parse_row_ok _ _ _ Hrow), (IH _ _ Hrows).
    destruct s. unfold logged. cbn. rewrite !app_assoc. reflexivity.
Qed.

(** Whatever the rows are, reading them sends nothing and writes
    nothing; it ends normally or with the [KeyError] of a missing
    [value] attribute. *)
Lemma parse_row_cases (row : table_row) (acc : list product) (s : state) :
  (row_ok row = true
   /\ parse_row row acc s =
        (Ok (acc ++ row_products row), logged (row_log row) s))
  \/ (row_ok row = false
      /\ parse_row row acc s =
           (Raise (KeyError "value"), logged (row_log row) s)).
Proof.
  destruct (row_ok row) eqn:E; [left; split; [reflexivity|]|right; split; [reflexivity|]].
  - apply parse_row_ok, E.
  - unfold row_ok, parse_row, row_log, logged in *. destruct s as [d rq lg wr].
    destruct row as [[t|] opts]; cbn in *; [|discriminate].
    unfold bind. destruct opts as [|o opts]; [discriminate|].
    cbn [nonempty ret].
    destruct (add_links_cases (o :: opts) ∅
                {| fs := d; sent := rq; log := lg; written := wr |})
      as [[H _]|[_ H]]; [congruence|].
    rewrite H, app_nil_r. reflexivity.
Qed.

Lemma parse_rows_cases (rows : list table_row) (acc : list product)
    (s : state) :
  (forallb row_ok rows = true
   /\ for_fold parse_row rows acc s =
        (Ok (acc ++ flat_map row_products rows),
         logged (flat_map row_log rows) s))
  \/ (forallb row_ok rows = false
      /\ exists l, for_fold parse_row rows acc s =
                     (Raise (KeyError "value"), logged l s)).
Proof.
  destruct (forallb row_ok rows) eqn:E.
  - left. split; [reflexivity|]. apply parse_rows_ok, E.
  - right. split; [reflexivity|]. revert acc s.
    induction rows as [|row rows IH]; intros acc s; [discriminate|].
    cbn in E. cbn [for_fold]. unfold bind at 1.
    destruct (parse_row_cases row acc s) as [[Hr Hp]|[Hr Hp]]; rewrite Hp.
    + rewrite Hr in E. cbn in E.
      destruct (IH E (acc ++ row_products row) (logged (row_log row) s))
        as [l Hl].
      exists (row_log row ++ l). rewrite Hl. destruct s. unfold logged. cbn.
      rewrite app_assoc. reflexivity.
    + exists (row_log row). reflexivity.
Qed.

Abbreviation fetch_loop := (fetch_loop site unescape unicode_lower).
Abbreviation page_at := (page_at site).
Abbreviation page_products := (page_products unescape unicode_lower).
Abbreviation all_products := (listing_products site unescape unicode_lower).
Abbreviation after_pages := (fetched site).
Abbreviation continue_from := (pages_continue site).

(** One turn of the [while] loop. *)
Lemma fetch_loop_unfold (fuel : nat) (limit p : Z) (acc : list product)
    (s : state) :
  fetch_loop (S fuel) limit p acc s =
    let sp := page_at limit p in
    let s1 := logged [LogRecord INFO "Fetching products page %d..." [ArgInt p]]
                (requested [listing_request limit p] s) in
    if nonempty (soup_rows sp) then
      match for_fold parse_row (soup_rows sp) acc s1 with
      | (Ok acc', s2) =>
          match soup_pager sp with
          | None => (Raise AttributeError, s2)
          | Some d =>
              if has_next (pager_pages d)
              then fetch_loop fuel limit (p + 1) acc' s2
              else (Ok acc', s2)
          end
      | (Raise e, s2) => (Raise e, s2)
      | (Diverge, s2) => (Diverge, s2)
      end
    else
      (Ok acc,
       logged [LogRecord WARNING "Didn't find any products on page %d!"
                 [ArgInt p]] s1).
Proof.
  cbn [fetch_loop]. unfold bind at 1 2. cbn [logger send].
  cbv zeta. fold (listing_request limit p).
  change (resp_soup (site (listing_request limit p))) with (page_at limit p).
  unfold logged, requested. cbn [fs sent log written].
  destruct (nonempty (soup_rows (page_at limit p))); [|reflexivity].
  unfold bind at 1.
  match goal with |- context [for_fold ?f ?l ?a ?st] =>
    destruct (for_fold f l a st) as [[acc'| |] s2] end; try reflexivity.
  unfold bind, find_pages. destruct (soup_pager (page_at limit p)) as [d|];
    [|reflexivity].
  cbn. destruct (has_next (pager_pages d)); reflexivity.
Qed.

Lemma fetched_app (limit : Z) (ps qs : list Z) (s : state) :
  after_pages limit qs (after_pages limit ps s) = after_pages limit (ps ++ qs) s.
Proof.
  unfold fetched, logged, requested, listing_log. cbn.
  rewrite map_app, flat_map_app, !app_assoc. reflexivity.
Qed.

(** A page with readable rows and a "next" item: the loop goes on with
    the next page number. *)
Lemma fetch_loop_continue (fuel : nat) (limit p : Z) (acc : list product)
    (s : state) :
  rows_ok (page_at limit p) = true ->
  next_control (page_at limit p) = true ->
  fetch_loop (S fuel) limit p acc s =
    fetch_loop fuel limit (p + 1) (acc ++ page_products (page_at limit p))
      (after_pages limit [p] s).
Proof.
  intros Hrows Hnext. rewrite fetch_loop_unfold. cbv zeta.
  unfold rows_ok in Hrows. apply andb_prop in Hrows as [Hne Hok].
  rewrite Hne, (parse_rows_ok _ _ _ Hok), logged_logged.
  unfold next_control in Hnext.
  destruct (soup_pager (page_at limit p)) as [d|]; [|discriminate].
  rewrite Hnext. f_equal.
  unfold fetched, listing_log, page_log. cbn.
  rewrite app_nil_r. reflexivity.
Qed.

(** A page with readable rows and a pager without "next": the loop ends. *)
Lemma fetch_loop_stop (fuel : nat) (limit p : Z) (acc : list product)
    (s : state) :
  rows_ok (page_at limit p) = true ->
  pager_without_next (page_at limit p) = true ->
  fetch_loop (S fuel) limit p acc s =
    (Ok (acc ++ page_products (page_at limit p)), after_pages limit [p] s).
Proof.
  intros Hrows Hlast. rewrite fetch_loop_unfold. cbv zeta.
  unfold rows_ok in Hrows. apply andb_prop in Hrows as [Hne Hok].
  rewrite Hne, (parse_rows_ok _ _ _ Hok), logged_logged.
  unfold pager_without_next in Hlast.
  destruct (soup_pager (page_at limit p)) as [d|]; [|discriminate].
  apply negb_true_iff in Hlast. rewrite Hlast. f_equal.
  unfold fetched, listing_log, page_log. cbn.
  rewrite app_nil_r. reflexivity.
Qed.

(** A page without product rows: the loop returns what it has. *)
Lemma fetch_loop_empty (fuel : nat) (limit p : Z) (acc : list product)
    (s : state) :
  soup_rows (page_at limit p) = [] ->
  fetch_loop (S fuel) limit p acc s =
    (Ok acc, logged (empty_page_log p) (requested [listing_request limit p] s)).
Proof.
  intros Hrows. rewrite fetch_loop_unfold. cbv zeta. rewrite Hrows.
  cbn [nonempty]. rewrite logged_logged. reflexivity.
Qed.

(** A page with product rows and no pager div: the loop raises. *)
Lemma fetch_loop_no_pager (fuel : nat) (limit p : Z) (acc : list product)
    (s : state) :
  nonempty (soup_rows (page_at limit p)) = true ->
  soup_pager (page_at limit p) = None ->
  exists e l,
    fetch_loop (S fuel) limit p acc s =
      (Raise e, logged l (requested [listing_request limit p] s))
    /\ (forallb row_ok (soup_rows (page_at limit p)) = true ->
        e = AttributeError).
Proof.
  intros Hne Hpager. rewrite fetch_loop_unfold. cbv zeta.
  rewrite Hne, Hpager.
  match goal with |- context [for_fold ?f ?l ?a ?st] =>
    destruct (parse_rows_cases l a st) as [[Hok Hp]|[Hok [l' Hp]]] end;
    rewrite Hp, logged_logged.
  - eexists _, _. split; [reflexivity|reflexivity].
  - eexists _, _. split; [reflexivity|]. congruence.
Qed.

(** The loop walks through a stretch of pages that all continue. *)
Lemma fetch_loop_prefix (n fuel : nat) (limit p : Z) (acc : list product)
    (s : state) :
  continue_from limit p n ->
  fetch_loop (n + fuel) limit p acc s =
    fetch_loop fuel limit (p + Z.of_nat n)
      (acc ++ all_products limit (page_numbers p n))
      (after_pages limit (page_numbers p n) s).
Proof.
  revert p acc s. induction n as [|n IH]; intros p acc s H.
  - cbn [page_numbers Nat.add]. unfold listing_products. cbn [flat_map].
    rewrite app_nil_r, Z.add_0_r. f_equal.
    destruct s. unfold fetched, logged, requested, listing_log. cbn.
    rewrite !app_nil_r. reflexivity.
  - unfold pages_continue in H. cbn [page_numbers] in H.
    apply Forall_cons in H as [[Hrows Hnext] Hrest].
    cbn [Nat.add]. rewrite (fetch_loop_continue _ _ _ _ _ Hrows Hnext).
    rewrite (IH _ _ _ Hrest), fetched_app.
    cbn [page_numbers]. unfold listing_products. cbn [flat_map].
    rewrite <- app_assoc.
    replace (p + 1 + Z.of_nat n)%Z with (p + Z.of_nat (S n))%Z by lia.
    reflexivity.
Qed.

Lemma page_numbers_spec (p : Z) (n : nat) :
  page_numbers p n = map (fun i => (p + Z.of_nat i)%Z) (seq 0 n).
Proof.
  revert p. induction n as [|n IH]; intros p; [reflexivity|].
  cbn [page_numbers seq map]. rewrite IH, <- seq_shift, map_map.
  f_equal; [lia|]. apply map_ext. intros i. lia.
Qed.

Lemma page_numbers_snoc (p : Z) (n : nat) :
  page_numbers p (S n) = page_numbers p n ++ [(p + Z.of_nat n)%Z].
Proof.
  revert p. induction n as [|n IH]; intros p.
  - cbn. rewrite Z.add_0_r. reflexivity.
  - change (page_numbers p (S (S n))) with (p :: page_numbers (p + 1) (S n)).
    rewrite IH. cbn [page_numbers app]. do 3 f_equal. lia.
Qed.

Lemma page_numbers_length (p : Z) (n : nat) : length (page_numbers p n) = n.
Proof. revert p. induction n as [|n IH]; intros p; cbn; [|rewrite IH]; reflexivity. Qed.

(* ------------------------------------------------------------------ *)
(** ** The catalogue loop *)


(** C4 (amended): if each of the pages 1..N has at least one product row
    and every option of its titled rows has a value attribute, pages
    1..N-1 have a "next" item in their pager and page N has a pager div
    without one, then [fetch_products] ends (for every loop bound of at
    least N), has sent exactly the N page requests numbered 1, 2, ..., N,
    and returns the products of the N pages in page order. *)
Theorem fetch_products_all_pages (limit : Z) (n fuel : nat) (s : state) :
  (0 < n)%nat ->
  continue_from limit 1 (n - 1) ->
  rows_ok (page_at limit (Z.of_nat n)) = true ->
  pager_without_next (page_at limit (Z.of_nat n)) = true ->
  (n <= fuel)%nat ->
  fetch_products site unescape unicode_lower fuel limit s =
    (Ok (all_products limit (page_numbers 1 n)),
     after_pages limit (page_numbers 1 n) s)
  /\ sent (after_pages limit (page_numbers 1 n) s) =
       sent s ++ map (listing_request limit) (page_numbers 1 n)
  /\ page_numbers 1 n = map Z.of_nat (seq 1 n).
Proof.
  intros Hn Hpre Hrows Hlast Hfuel.
  split; [|split; [reflexivity|]].
  - destruct n as [|m]; [lia|]. cbn [Nat.sub] in Hpre.
    rewrite Nat.sub_0_r in Hpre.
    replace fuel with (m + S (fuel - S m))%nat by lia.
    unfold fetch_products. rewrite (fetch_loop_prefix _ _ _ _ _ _ Hpre).
    assert (Hnum : (1 + Z.of_nat m)%Z = Z.of_nat (S m)) by lia.
    rewrite Hnum, (fetch_loop_stop _ _ _ _ _ Hrows Hlast), fetched_app.
    rewrite (page_numbers_snoc 1 m), Hnum. unfold listing_products.
    rewrite flat_map_app. cbn [flat_map]. rewrite app_nil_r.
    reflexivity.
  - rewrite page_numbers_spec, <- seq_shift, map_map. apply map_ext.
    intros i. lia.
Qed.

(** C5: when pages 1..k-1 continue and page k has no product rows,
    [fetch_products] logs a warning for page k and returns the products
    of pages 1..k-1; the requests it has sent are those for pages 1..k and
    no more. *)
Theorem fetch_products_empty_page (limit : Z) (k fuel : nat) (s : state) :
  (0 < k)%nat ->
  continue_from limit 1 (k - 1) ->
  soup_rows (page_at limit (Z.of_nat k)) = [] ->
  (k <= fuel)%nat ->
  exists s',
    fetch_products site unescape unicode_lower fuel limit s =
      (Ok (all_products limit (page_numbers 1 (k - 1))), s')
    /\ sent s' = sent s ++ map (listing_request limit) (page_numbers 1 k)
    /\ log s' = log s ++ listing_log site limit (page_numbers 1 (k - 1))
                 ++ empty_page_log (Z.of_nat k)
    /\ fs s' = fs s /\ written s' = written s.
Proof.
  intros Hk Hpre Hrows Hfuel.
  destruct k as [|m]; [lia|]. cbn [Nat.sub] in *.
  rewrite Nat.sub_0_r in *.
  replace fuel with (m + S (fuel - S m))%nat by lia.
  unfold fetch_products. rewrite (fetch_loop_prefix _ _ _ _ _ _ Hpre).
  assert (Hnum : (1 + Z.of_nat m)%Z = Z.of_nat (S m)) by lia.
  rewrite Hnum, (fetch_loop_empty _ _ _ _ _ Hrows).
  eexists. split; [reflexivity|].
  unfold fetched, logged, requested. cbn [fs sent log written].
  rewrite (page_numbers_snoc 1 m), map_app, Hnum, <- !app_assoc.
  repeat split.
Qed.

(** C10: when pages 1..k-1 continue and page k has at least one product
    row but no pager div, [fetch_products] raises instead of returning the
    products it has ([AttributeError] when the rows themselves are
    readable).  With readable rows on page k the loop ends normally at
    page k exactly when the pager div is there and has no "next" item
    (no pages div, or no next item in it); with a "next" item it goes on
    to page k+1. *)
Theorem fetch_products_missing_pager (limit : Z) (k fuel : nat) (s : state) :
  (0 < k)%nat ->
  continue_from limit 1 (k - 1) ->
  nonempty (soup_rows (page_at limit (Z.of_nat k))) = true ->
  (soup_pager (page_at limit (Z.of_nat k)) = None ->
   exists e s',
     fetch_products site unescape unicode_lower (k + fuel) limit s =
       (Raise e, s')
     /\ sent s' = sent s ++ map (listing_request limit) (page_numbers 1 k)
     /\ (forallb row_ok (soup_rows (page_at limit (Z.of_nat k))) = true ->
         e = AttributeError))
  /\ (forallb row_ok (soup_rows (page_at limit (Z.of_nat k))) = true ->
      fetch_products site unescape unicode_lower (k + fuel) limit s =
        let products := all_products limit (page_numbers 1 k) in
        let s' := after_pages limit (page_numbers 1 k) s in
        match soup_pager (page_at limit (Z.of_nat k)) with
        | None => (Raise AttributeError, s')
        | Some d =>
            if has_next (pager_pages d)
            then fetch_loop fuel limit (Z.of_nat k + 1) products s'
            else (Ok products, s')
        end).
Proof.
  intros Hk Hpre Hne.
  destruct k as [|m]; [lia|]. cbn [Nat.sub] in *.
  rewrite Nat.sub_0_r in *.
  assert (Hnum : (1 + Z.of_nat m)%Z = Z.of_nat (S m)) by lia.
  unfold fetch_products.
  replace (S m + fuel)%nat with (m + S fuel)%nat by lia.
  rewrite (fetch_loop_prefix _ _ _ _ _ _ Hpre), Hnum.
  split.
  - intros Hpager.
    destruct (fetch_loop_no_pager fuel limit (Z.of_nat (S m))
                (all_products limit (page_numbers 1 m))
                (after_pages limit (page_numbers 1 m) s) Hne Hpager)
      as (e & l & Heq & He).
    exists e. eexists. split; [exact Heq|]. split; [|exact He].
    unfold fetched, logged, requested. cbn [fs sent log written].
    rewrite (page_numbers_snoc 1 m), map_app, <- !app_assoc, Hnum.
    reflexivity.
  - intros Hok. cbv zeta.
    assert (Hst : after_pages limit (page_numbers 1 (S m)) s =
                  after_pages limit [Z.of_nat (S m)]
                    (after_pages limit (page_numbers 1 m) s)).
    { rewrite fetched_app, page_numbers_snoc, Hnum. reflexivity. }
    assert (Hprod : all_products limit (page_numbers 1 (S m)) =
                    all_products limit (page_numbers 1 m)
                    ++ page_products (page_at limit (Z.of_nat (S m)))).
    { unfold listing_products.
      rewrite page_numbers_snoc, flat_map_app, Hnum. cbn.
      rewrite app_nil_r. reflexivity. }
    rewrite Hst, Hprod.
    destruct (soup_pager (page_at limit (Z.of_nat (S m)))) as [d|] eqn:Ep.
    + destruct (has_next (pager_pages d)) eqn:En.
      * apply fetch_loop_continue.
        -- unfold rows_ok. rewrite Hne, Hok. reflexivity.
        -- unfold next_control. rewrite Ep. exact En.
      * apply fetch_loop_stop.
        -- unfold rows_ok. rewrite Hne, Hok. reflexivity.
        -- unfold pager_without_next. rewrite Ep, En. reflexivity.
    + rewrite fetch_loop_unfold. cbv zeta.
      rewrite Hne, (parse_rows_ok _ _ _ Hok), logged_logged, Ep.
      f_equal. unfold fetched, listing_log, page_log, logged, requested.
      cbn. rewrite !app_nil_r. reflexivity.
Qed.

(** *** The keys of the links mapping *)

Lemma lower_nil_iff (t : ustring) : lower unicode_lower t = [] <-> t = [].
Proof. unfold lower. destruct t; cbn; split; congruence. Qed.

Lemma put_links_lookup (opts : list option_tag) (m : gmap ustring ustring)
    (k v : ustring) :
  foldl put_link m opts !! k = Some v ->
  m !! k = Some v
  \/ exists o, o ∈ opts /\ k = lower unicode_lower (opt_text o)
               /\ opt_value o = Some v.
Proof.
  revert m. induction opts as [|o opts IH]; intros m H; [left; exact H|].
  cbn [foldl] in H. apply IH in H as [H|(o' & Hin & Hk & Hv)].
  - unfold put_link in H. destruct (opt_value o) as [w|] eqn:Ev.
    + apply lookup_insert_Some in H as [[Hk Hw]|[_ H]].
      * right. exists o. subst. split; [left|split; [reflexivity|exact Ev]].
      * left. exact H.
    + left. exact H.
  - right. exists o'. split; [right; exact Hin|split; assumption].
Qed.

Lemma put_links_keep (opts : list option_tag) (m : gmap ustring ustring)
    (k : ustring) :
  is_Some (m !! k) -> is_Some (foldl put_link m opts !! k).
Proof.
  revert m. induction opts as [|o opts IH]; intros m H; [exact H|].
  cbn [foldl]. apply IH. unfold put_link. destruct (opt_value o); [|exact H].
  rewrite lookup_insert_is_Some'. right. exact H.
Qed.

Lemma put_links_all (opts : list option_tag) (m : gmap ustring ustring)
    (o : option_tag) :
  forallb opt_valued opts = true ->
  o ∈ opts ->
  is_Some (foldl put_link m opts !! lower unicode_lower (opt_text o)).
Proof.
  revert m. induction opts as [|o' opts IH]; intros m Hv Hin.
  - inversion Hin.
  - cbn in Hv. apply andb_prop in Hv as [Ho' Hv]. cbn [foldl].
    apply elem_of_cons in Hin as [->|Hin]; [|apply IH; assumption].
    apply put_links_keep. unfold put_link, opt_valued in *.
    destruct (opt_value o'); [|discriminate].
    rewrite lookup_insert_is_Some'. left. reflexivity.
Qed.

Lemma fetch_loop_keys (fuel : nat) (limit p : Z) (acc products : list product)
    (s s' : state) :
  (1 <= p)%Z ->
  Forall (fun prod => forall k v, links prod !! k = Some v ->
                        link_of_listing site unicode_lower limit k v) acc ->
  fetch_loop fuel limit p acc s = (Ok products, s') ->
  Forall (fun prod => forall k v, links prod !! k = Some v ->
                        link_of_listing site unicode_lower limit k v) products.
Proof.
  revert p acc s. induction fuel as [|fuel IH]; intros p acc s Hp Hacc H;
    [discriminate|].
  rewrite fetch_loop_unfold in H. cbv zeta in H.
  destruct (nonempty (soup_rows (page_at limit p))).
  - match type of H with context [for_fold ?f ?l ?a ?st] =>
      destruct (parse_rows_cases l a st) as [[Hok Hp']|[Hok [l' Hp']]] end;
      rewrite Hp' in H; [|discriminate].
    assert (Hall : Forall (fun prod => forall k v, links prod !! k = Some v ->
                      link_of_listing site unicode_lower limit k v)
                     (acc ++ flat_map row_products (soup_rows (page_at limit p)))).
    { apply Forall_app. split; [exact Hacc|].
      apply Forall_forall. intros prod Hin k v Hk.
      apply list_elem_of_In, in_flat_map in Hin as (row & Hrow & Hin).
      unfold row_products in Hin.
      destruct (row_title row); [|inversion Hin].
      destruct Hin as [<-|[]]. cbn in Hk.
      apply put_links_lookup in Hk as [Hk|(o & Ho & Hko & Hvo)];
        [rewrite lookup_empty in Hk; discriminate|].
      exists p, row, o. apply list_elem_of_In in Hrow. auto. }
    destruct (soup_pager (page_at limit p)) as [d|]; [|discriminate].
    destruct (has_next (pager_pages d)).
    + apply (IH (p + 1)%Z _ _ ltac:(lia) Hall H).
    + injection H as <- _. exact Hall.
  - injection H as <- _. exact Hacc.
Qed.

(** C1 (amended): in every product returned by [fetch_products], each
    key of the links mapping is the lower-cased text of an option element
    of a row of a listing page, mapped to that option's value; the key is
    empty exactly when the option's text is empty.  No option is left
    out: when a row with a title is read, every one of its options
    contributes its key, an empty one included. *)
Theorem fetch_products_link_keys (limit : Z) :
  (forall fuel s products s',
     fetch_products site unescape unicode_lower fuel limit s
       = (Ok products, s') ->
     forall prod k v,
       prod ∈ products -> links prod !! k = Some v ->
       exists p row o,
         (1 <= p)%Z /\ row ∈ soup_rows (page_at limit p) /\ o ∈ row_opts row
         /\ k = lower unicode_lower (opt_text o) /\ opt_value o = Some v
         /\ (k = [] <-> opt_text o = []))
  /\ (forall row t acc s,
        row_title row = Some t -> row_ok row = true ->
        exists lnk,
          parse_row row acc s =
            (Ok (acc ++ [Product (unescape t) lnk]), logged (row_log row) s)
          /\ forall o, o ∈ row_opts row ->
               is_Some (lnk !! lower unicode_lower (opt_text o))).
Proof.
  split.
  - intros fuel s products s' H prod k v Hin Hk.
    apply fetch_loop_keys in H; [|lia|constructor].
    rewrite Forall_forall in H.
    destruct (H prod Hin k v Hk) as (p & row & o & Hp & Hrow & Ho & Hko & Hv).
    exists p, row, o. repeat (split; [assumption|]).
    subst k. apply lower_nil_iff.
  - intros row t acc s Ht Hok. exists (links_of (row_opts row)).
    rewrite (parse_row_ok _ _ _ Hok). unfold row_products.
    rewrite Ht. split; [reflexivity|].
    intros o Ho. unfold row_ok in Hok. rewrite Ht in Hok.
    apply put_links_all; assumption.
Qed.

End ListingFacts.

(* ------------------------------------------------------------------ *)
(** ** Logging in *)

Section LoginFacts.

Variable site : request -> response.

Lemma login_url_not_account_url : login_url <> account_url.
Proof. discriminate. Qed.

(** C3 (amended): [login] returns false exactly when the final URL of
    the credential POST is the login page URL, and then logs the failure
    as an error; it returns true, logging nothing more, when the final URL
    is the account page; for any other final URL it returns true and logs
    a record of level ERROR (not WARNING) that names the redirect
    target. *)
Theorem login_outcome (username password : ustring) (s : state) :
  let auth := [(u "login[username]", username);
               (u "login[password]", password); (u "send", [])] in
  let final := resp_url (site (POST loginPost_url auth)) in
  let hello :=
    LogRecord INFO "Authenticating with Username: %s and Password: %s"
      [ArgStr username; ArgStr (repeat 42%N (length password))] in
  exists b s',
    login site username password s = (Ok b, s')
    /\ (b = false <-> final = login_url)
    /\ sent s' = sent s ++ [GET login_url true false; POST loginPost_url auth]
    /\ fs s' = fs s /\ written s' = written s
    /\ (final = login_url ->
        log s' = log s ++ [hello;
          LogRecord ERROR "Failed to authenticate with Apress.com" []])
    /\ (final = account_url -> b = true /\ log s' = log s ++ [hello])
    /\ (final <> login_url -> final <> account_url ->
        b = true
        /\ log s' = log s ++ [hello;
             LogRecord ERROR
               "Failed to authenticate with Apress.com, redirected to: %s"
               [ArgStr final]]).
Proof.
  pose proof login_url_not_account_url as Hne.
  cbv zeta. unfold login, bind. cbn [logger send fs sent log written].
  destruct (decide (resp_url (site (POST loginPost_url
              [(u "login[username]", username);
               (u "login[password]", password); (u "send", [])])) = login_url))
    as [E|E].
  - eexists false, _. split; [reflexivity|]. cbn [fs sent log written].
    rewrite <- !app_assoc. repeat split; try reflexivity; try done;
      intros; exfalso; congruence.
  - destruct (decide (resp_url (site (POST loginPost_url
              [(u "login[username]", username);
               (u "login[password]", password); (u "send", [])])) = account_url))
      as [E'|E'].
    + eexists true, _. split; [reflexivity|]. cbn [fs sent log written].
      rewrite <- !app_assoc. repeat split; try reflexivity; try done.
    + eexists true, _. split; [reflexivity|]. cbn [fs sent log written].
      rewrite <- !app_assoc. repeat split; try reflexivity; try done.
Qed.

End LoginFacts.

(* ------------------------------------------------------------------ *)
(** ** Streaming a file to disk *)

Lemma open_wb_inr (m d : gmap ustring node) (p : ustring) :
  open_wb m p = inr d -> d = <[p := File []]> m.
Proof.
  unfold open_wb. destruct (m !! p) as [[data|]|]; try congruence.
  destruct (parent_error m p); congruence.
Qed.

Lemma file_writes (p : ustring) (chunks : list bytes) (data : bytes)
    (s : state) :
  fs s !! p = Some (File data) ->
  for_list (file_write p) chunks s =
    (Ok (map (fun _ => tt) chunks),
     {| fs := <[p := File (data ++ List.concat chunks)]> (fs s);
        sent := sent s; log := log s;
        written := written s ++ map (pair p) chunks |}).
Proof.
  revert data s. induction chunks as [|c chunks IH]; intros data s H.
  - destruct s. cbn in *. rewrite !app_nil_r, insert_id by exact H.
    reflexivity.
  - cbn [for_list]. unfold bind at 1. cbn [file_write].
    unfold bind at 1. unfold append. rewrite H.
    erewrite IH by (cbn; apply lookup_insert_eq).
    cbn. rewrite insert_insert_eq, <- !app_assoc. reflexivity.
Qed.

Section StreamFacts.

Variable site : request -> response.

(** What [stream_file] does, by whether the destination can be opened. *)
Lemma stream_file_cases (url filename : ustring) (s : state) :
  let kept := List.filter nonempty (resp_chunks (site (GET url true true))) in
  let s1 := logged [LogRecord DEBUG "Downloading '%s' to '%s'"
                      [ArgStr url; ArgStr filename]]
              (requested [GET url true true] s) in
  stream_file site url filename s =
    match open_wb (fs s) filename with
    | inl e => (Raise (IOError e), s1)
    | inr _ =>
        (Ok (map (fun _ => tt) kept),
         {| fs := <[filename := File (List.concat kept)]> (fs s);
            sent := sent s1; log := log s1;
            written := written s ++ map (pair filename) kept |})
    end.
Proof.
  cbv zeta. unfold stream_file, bind at 1 2 3. cbn [logger send].
  unfold open_file. cbn [fs]. destruct (open_wb (fs s) filename) as [e|d] eqn:E.
  - reflexivity.
  - apply open_wb_inr in E. subst d. unfold bind.
    erewrite file_writes by (cbn; apply lookup_insert_eq).
    cbn. rewrite insert_insert_eq. reflexivity.
Qed.

(** C9: when the destination can be opened for writing, [stream_file]
    sends one streaming GET, writes to the destination exactly the
    non-empty chunks of the response, in the order received, so that the
    file ends up holding their concatenation, and returns a list with one
    entry for each write performed. *)
Theorem stream_file_writes (url filename : ustring) (s : state)
    (d : gmap ustring node) :
  open_wb (fs s) filename = inr d ->
  let chunks := resp_chunks (site (GET url true true)) in
  let kept := List.filter nonempty chunks in
  exists writes s',
    stream_file site url filename s = (Ok writes, s')
    /\ length writes = length kept
    /\ written s' = written s ++ map (pair filename) kept
    /\ fs s' = <[filename := File (List.concat kept)]> (fs s)
    /\ List.concat kept = List.concat chunks
    /\ sent s' = sent s ++ [GET url true true].
Proof.
  intros Hopen. cbv zeta. rewrite stream_file_cases. cbv zeta. rewrite Hopen.
  eexists _, _. split; [reflexivity|]. cbn [fs sent log written requested logged].
  rewrite length_map. repeat split.
  induction (resp_chunks (site (GET url true true))) as [|c cs IH];
    [reflexivity|].
  cbn. destruct c; cbn; rewrite IH; reflexivity.
Qed.

End StreamFacts.

(* ------------------------------------------------------------------ *)
(** ** Downloading a product *)

Lemma disk_kept_refl (m : gmap ustring node) : disk_kept m m.
Proof.
  intros p. unfold isfile. destruct (m !! p) as [[data|]|] eqn:E;
    rewrite ?E; congruence.
Qed.

Lemma disk_kept_trans (m1 m2 m3 : gmap ustring node) :
  disk_kept m1 m2 -> disk_kept m2 m3 -> disk_kept m1 m3.
Proof.
  intros H12 H23 p. specialize (H12 p). specialize (H23 p).
  unfold isfile in *.
  destruct (m1 !! p) as [[d1|]|], (m2 !! p) as [[d2|]|],
    (m3 !! p) as [[d3|]|]; try congruence; try discriminate.
Qed.

Lemma disk_kept_isfile (m m' : gmap ustring node) (p : ustring) :
  disk_kept m m' -> isfile m p = true -> isfile m' p = true.
Proof.
  intros H Hp. specialize (H p). unfold isfile in Hp.
  destruct (m !! p) as [[d|]|]; try discriminate. exact H.
Qed.

(** Opening a file and writing it keeps the rest of the disk. *)
Lemma disk_kept_open (m d : gmap ustring node) (p : ustring) (data : bytes) :
  open_wb m p = inr d -> disk_kept m (<[p := File data]> m).
Proof.
  intros Hopen q. unfold isfile. destruct (decide (p = q)) as [<-|Hne].
  - rewrite lookup_insert_eq. unfold open_wb in Hopen.
    destruct (m !! p) as [[d1|]|]; congruence.
  - rewrite lookup_insert_ne by exact Hne.
    destruct (m !! q) as [[d1|]|]; congruence.
Qed.

(** A directory that cannot be made on a disk cannot be made on a disk
    that keeps it. *)
Lemma mkdir_fails_kept (m m' : gmap ustring node) (p : ustring) (e : errno) :
  mkdir m p = inl e -> disk_kept m m' -> exists e', mkdir m' p = inl e'.
Proof.
  unfold mkdir, parent_error. intros H K.
  destruct (m' !! p) eqn:E'; [eexists; reflexivity|].
  pose proof (K p) as Kp. rewrite E' in Kp. unfold isfile in Kp.
  rewrite E' in Kp.
  destruct (m !! p) as [[d|]|]; try discriminate.
  destruct (parent p) as [q|]; [|discriminate].
  pose proof (K q) as Kq. unfold isfile in Kq.
  destruct (m !! q) as [[d|]|], (m' !! q) as [[d'|]|];
    try discriminate; try congruence; eexists; reflexivity.
Qed.

Lemma mkdir_made (m d : gmap ustring node) (p : ustring) :
  mkdir m p = inr d -> d !! p = Some Dir.
Proof.
  unfold mkdir. destruct (m !! p); [discriminate|].
  destruct (parent_error m p); [discriminate|].
  intros [= <-]. apply lookup_insert_eq.
Qed.

(** [try: os.mkdir(p) except OSError: pass] never raises. *)
Lemma try_mkdir (p : ustring) (s : state) :
  try_except_OSError (os_mkdir p) s =
    (Ok tt, match mkdir (fs s) p with
            | inl _ => s
            | inr d => set_fs d s
            end).
Proof.
  unfold try_except_OSError, os_mkdir. destruct (mkdir (fs s) p); reflexivity.
Qed.

Section DownloadFacts.

Variable site : request -> response.

Lemma download_link_skip (filename extension url : ustring) (s : state) :
  isfile (fs s) (filename ++ extension) = true ->
  download_link site false filename (extension, url) s =
    (Ok tt, logged [skip_record (filename ++ extension)] s).
Proof.
  intros H. unfold download_link, bind, os_path_isfile. rewrite H. reflexivity.
Qed.

Lemma download_link_stream (overwrite : bool) (filename extension url : ustring)
    (s : state) :
  isfile (fs s) (filename ++ extension) = false \/ overwrite = true ->
  download_link site overwrite filename (extension, url) s =
    (stream_file site url (filename ++ extension) ;; ret tt) s.
Proof.
  intros H. unfold download_link, bind at 1, os_path_isfile.
  destruct H as [-> | ->]; [reflexivity|]. rewrite orb_true_r. reflexivity.
Qed.

(** One step of the loop over the links ends normally, or with the
    [IOError] of a destination that cannot be opened. *)
Lemma download_link_cases (overwrite : bool) (filename : ustring)
    (item : ustring * ustring) (s : state) :
  (exists s', download_link site overwrite filename item s = (Ok tt, s')
              /\ disk_kept (fs s) (fs s')
              /\ isfile (fs s') (filename ++ fst item) = true)
  \/ (exists e s', download_link site overwrite filename item s
                   = (Raise (IOError e), s')).
Proof.
  destruct item as [extension url]. cbn [fst].
  destruct (isfile (fs s) (filename ++ extension)) eqn:Ef, overwrite eqn:Eo.
  2: { left. rewrite (download_link_skip _ _ _ _ Ef). eexists.
       split; [reflexivity|]. split; [apply disk_kept_refl|exact Ef]. }
  all: rewrite download_link_stream by auto; unfold bind;
    rewrite stream_file_cases; cbv zeta;
    destruct (open_wb (fs s) (filename ++ extension)) as [e|d] eqn:Eopen;
    [right; eexists _, _; reflexivity|];
    left; eexists; (split; [reflexivity|]); cbn [fs]; split;
    [exact (disk_kept_open _ _ _ _ Eopen)
    |unfold isfile; rewrite lookup_insert_eq; reflexivity].
Qed.

Lemma download_links_cases (overwrite : bool) (filename : ustring)
    (items : list (ustring * ustring)) (s : state) :
  (exists s', for_each (download_link site overwrite filename) items s
              = (Ok tt, s')
              /\ disk_kept (fs s) (fs s')
              /\ forall item, item ∈ items ->
                   isfile (fs s') (filename ++ fst item) = true)
  \/ (exists e s', for_each (download_link site overwrite filename) items s
                   = (Raise (IOError e), s')).
Proof.
  revert s. induction items as [|item items IH]; intros s.
  - left. exists s. split; [reflexivity|]. split; [apply disk_kept_refl|].
    intros item H. inversion H.
  - cbn [for_each]. unfold bind.
    destruct (download_link_cases overwrite filename item s)
      as [(s1 & H1 & K1 & F1)|(e & s1 & H1)]; rewrite H1.
    + destruct (IH s1) as [(s2 & H2 & K2 & F2)|(e & s2 & H2)]; rewrite H2.
      * left. exists s2. split; [reflexivity|].
        split; [exact (disk_kept_trans _ _ _ K1 K2)|].
        intros it Hin. apply elem_of_cons in Hin as [->|Hin].
        -- exact (disk_kept_isfile _ _ _ K2 F1).
        -- apply F2, Hin.
      * right. eexists _, _. reflexivity.
    + right. eexists _, _. reflexivity.
Qed.

(** With every target on disk and overwrite off, the loop only logs. *)
Lemma download_links_present (filename : ustring)
    (items : list (ustring * ustring)) (s : state) :
  (forall item, item ∈ items -> isfile (fs s) (filename ++ fst item) = true) ->
  for_each (download_link site false filename) items s =
    (Ok tt, logged (map (fun item => skip_record (filename ++ fst item)) items) s).
Proof.
  revert s. induction items as [|[extension url] items IH]; intros s H.
  - destruct s. unfold logged. cbn. rewrite app_nil_r. reflexivity.
  - cbn [for_each]. unfold bind.
    rewrite download_link_skip by (apply (H (extension, url)); left).
    rewrite IH by (intros it Hin; apply (H it); right; exact Hin).
    destruct s. unfold logged. cbn. rewrite <- app_assoc. reflexivity.
Qed.

Lemma download_product_unfold (overwrite : bool) (p : product) (path : ustring)
    (s : state) :
  download_product site overwrite p path s =
    for_each (download_link site overwrite (product_filename path p))
      (map_to_list (links p))
      (logged [downloading_record p]
         match mkdir (fs s) (product_dir path p) with
         | inl _ => s
         | inr d => set_fs d s
         end).
Proof.
  unfold download_product, bind at 1. fold (product_dir path p).
  rewrite try_mkdir. reflexivity.
Qed.



End DownloadFacts.

(* ------------------------------------------------------------------ *)
(** ** The theorems at work on the sample sites *)

(** A title with characters outside ASCII: they are dropped, they are
    not replaced. *)
Example name_of_title_non_ascii :
  name_of_title [67; 97; 102; 233; 32; 8212; 32; 66; 97; 114]%N = u "Caf_Bar".
Proof. reflexivity. Qed.

(** C1, as stated, fails: an option element with an empty label puts
    the empty key into the links mapping; the row is not skipped. *)
Lemma fetch_products_empty_key :
  ~ (forall site unescape unicode_lower fuel limit s products s',
       fetch_products site unescape unicode_lower fuel limit s
         = (Ok products, s') ->
       forall prod, prod ∈ products -> links prod !! [] = None).
Proof.
  intros H.
  specialize (H blank_label same_text same_letter 5%nat 50%Z fresh
                [blank] (fetched blank_label 50 [1%Z] fresh)).
  specialize (H ltac:(vm_compute; reflexivity) _ ltac:(left)).
  vm_compute in H. discriminate.
Qed.

Lemma fetch_products_link_keys_witness :
  exists p row o,
    (1 <= p)%Z /\ row ∈ soup_rows (page_at blank_label 50 p)
    /\ o ∈ row_opts row
    /\ @nil N = lower same_letter (opt_text o)
    /\ opt_value o = Some (u "http://x/c")
    /\ (@nil N = [] <-> opt_text o = []).
Proof.
  apply (proj1 (fetch_products_link_keys blank_label same_text same_letter 50)
           5%nat fresh
           [blank] (fetched blank_label 50 [1%Z] fresh)
           ltac:(vm_compute; reflexivity) blank).
  - left.
  - vm_compute. reflexivity.
Defined.



(** C3, as stated, fails: after a redirect to any other page no record of
    level WARNING is logged. *)
Lemma login_logs_no_warning :
  ~ (forall site username password s,
       let auth := [(u "login[username]", username);
                    (u "login[password]", password); (u "send", [])] in
       let final := resp_url (site (POST loginPost_url auth)) in
       final <> login_url -> final <> account_url ->
       fst (login site username password s) = Ok true
       /\ exists r, r ∈ log (snd (login site username password s))
                    /\ lvl r = WARNING).
Proof.
  intros H.
  destruct (H front_page (u "me") (u "pw") fresh
              ltac:(discriminate) ltac:(discriminate)) as [_ (r & Hin & Hl)].
  vm_compute in Hin.
  apply elem_of_cons in Hin as [->|Hin]; [discriminate|].
  apply elem_of_cons in Hin as [->|Hin]; [discriminate|].
  inversion Hin.
Qed.

Lemma login_outcome_witness :
  exists b s',
    login front_page (u "me") (u "pw") fresh = (Ok b, s')
    /\ b = true
    /\ log s' =
         [LogRecord INFO "Authenticating with Username: %s and Password: %s"
            [ArgStr (u "me"); ArgStr (u "**")];
          LogRecord ERROR
            "Failed to authenticate with Apress.com, redirected to: %s"
            [ArgStr (u "https://www.apress.com/")]].
Proof.
  destruct (login_outcome front_page (u "me") (u "pw") fresh)
    as (b & s' & Hrun & _ & _ & _ & _ & _ & _ & Hother).
  destruct Hother as [Hb Hlog]; [discriminate|discriminate|].
  exists b, s'. split; [exact Hrun|]. split; [exact Hb|exact Hlog].
Defined.

(** C4, as stated, fails: "next" on every page but the last does not
    make the loop request them all.  Here page 2 of 3 has no rows, and
    there are never three requests. *)
Lemma fetch_products_fewer_requests :
  ~ (forall site unescape unicode_lower limit (n : nat) s,
       (0 < n)%nat ->
       (forall p : nat, (1 <= p < n)%nat ->
          next_control (page_at site limit (Z.of_nat p)) = true) ->
       next_control (page_at site limit (Z.of_nat n)) = false ->
       exists fuel products s',
         fetch_products site unescape unicode_lower fuel limit s
           = (Ok products, s')
         /\ length (sent s') = (length (sent s) + n)%nat).
Proof.
  intros H.
  destruct (H gap_on_page_two same_text same_letter 50%Z 3%nat fresh)
    as (fuel & products & s' & Hrun & Hlen).
  - lia.
  - intros p Hp. assert (p = 1 \/ p = 2)%nat as [-> | ->] by lia; vm_compute; reflexivity.
  - vm_compute; reflexivity.
  - destruct fuel as [|[|fuel]]; try discriminate.
    vm_compute in Hrun. injection Hrun as _ <-. discriminate.
Qed.

Lemma fetch_products_all_pages_witness :
  fetch_products two_pages same_text same_letter 5 50 fresh =
    (Ok (listing_products two_pages same_text same_letter 50 (page_numbers 1 2)),
     fetched two_pages 50 (page_numbers 1 2) fresh)
  /\ sent (fetched two_pages 50 (page_numbers 1 2) fresh) =
       sent fresh ++ map (listing_request 50) (page_numbers 1 2)
  /\ page_numbers 1 2 = map Z.of_nat (seq 1 2).
Proof.
  apply (fetch_products_all_pages two_pages same_text same_letter 50 2 5
           fresh).
  - lia.
  - repeat constructor.
  - vm_compute; reflexivity.
  - vm_compute; reflexivity.
  - lia.
Defined.

Lemma fetch_products_empty_page_witness :
  exists s',
    fetch_products gap_on_page_two same_text same_letter 5 50 fresh =
      (Ok (listing_products gap_on_page_two same_text same_letter 50
             (page_numbers 1 (2 - 1))), s')
    /\ sent s' = sent fresh ++ map (listing_request 50) (page_numbers 1 2)
    /\ log s' = log fresh
                ++ listing_log gap_on_page_two 50 (page_numbers 1 (2 - 1))
                ++ empty_page_log (Z.of_nat 2)
    /\ fs s' = fs fresh /\ written s' = written fresh.
Proof.
  apply (fetch_products_empty_page gap_on_page_two same_text same_letter 50 2 5
           fresh).
  - lia.
  - repeat constructor.
  - vm_compute; reflexivity.
  - lia.
Defined.

(** On the sample with a gap, page 2 of 3 has no rows; what is returned
    is the one product of page 1, and page 3 is not among the requests. *)
Example fetch_products_stops_at_gap :
  fst (fetch_products gap_on_page_two same_text same_letter 5 50 fresh)
    = Ok [primer]
  /\ sent (snd (fetch_products gap_on_page_two same_text same_letter 5 50
                  fresh))
     = [listing_request 50 1; listing_request 50 2].
Proof. split; vm_compute; reflexivity. Qed.


(** The end-to-end scenario: one row titled "C++ Primer: 5th Edition!"
    with the formats PDF and EPUB gives one product, and downloading it
    writes the two files under the directory C++_Primer_5th_Edition_. *)
Example primer_end_to_end :
  fst (fetch_products (serve [Soup [primer_row] (pager false)] sample_files
                         account_url) same_text same_letter 5 50 fresh)
    = Ok [primer]
  /\ let d := fs (snd (download_product two_pages false primer (u "ebooks")
                         fresh_ebooks)) in
     d !! u "ebooks/C++_Primer_5th_Edition_" = Some Dir
     /\ d !! u "ebooks/C++_Primer_5th_Edition_/C++_Primer_5th_Edition_.pdf"
        = Some (File (list_byte_of_string "%PDF-1.4"))
     /\ d !! u "ebooks/C++_Primer_5th_Edition_/C++_Primer_5th_Edition_.epub"
        = Some (File (list_byte_of_string "PK"))
     /\ size d = 4%nat.
Proof. repeat split; vm_compute; reflexivity. Qed.

Lemma stream_file_writes_witness :
  let chunks := resp_chunks (two_pages (GET (u "http://x/a") true true)) in
  let kept := List.filter nonempty chunks in
  exists writes s',
    stream_file two_pages (u "http://x/a") (u "a.pdf") fresh
      = (Ok writes, s')
    /\ length writes = length kept
    /\ written s' = written fresh ++ map (pair (u "a.pdf")) kept
    /\ fs s' = <[u "a.pdf" := File (List.concat kept)]> (fs fresh)
    /\ List.concat kept = List.concat chunks
    /\ sent s' = sent fresh ++ [GET (u "http://x/a") true true].
Proof.
  apply (stream_file_writes two_pages (u "http://x/a") (u "a.pdf") fresh
           (<[u "a.pdf" := File []]> ∅)).
  vm_compute; reflexivity.
Defined.

(** Three chunks arrive, the middle one empty; two writes are made. *)
Example stream_file_skips_empty_chunk :
  stream_file two_pages (u "http://x/a") (u "a.pdf") fresh =
    (Ok [tt; tt],
     {| fs := <[u "a.pdf" := File (list_byte_of_string "%PDF-1.4")]> ∅;
        sent := [GET (u "http://x/a") true true];
        log := [LogRecord DEBUG "Downloading '%s' to '%s'"
                  [ArgStr (u "http://x/a"); ArgStr (u "a.pdf")]];
        written := [(u "a.pdf", list_byte_of_string "%PDF");
                    (u "a.pdf", list_byte_of_string "-1.4")] |}).
Proof. vm_compute. reflexivity. Qed.

Lemma fetch_products_missing_pager_witness :
  exists e s',
    fetch_products no_pager same_text same_letter (1 + 4) 50 fresh
      = (Raise e, s')
    /\ sent s' = sent fresh ++ map (listing_request 50) (page_numbers 1 1)
    /\ (forallb row_ok (soup_rows (page_at no_pager 50 (Z.of_nat 1))) = true ->
        e = AttributeError).
Proof.
  apply (proj1 (fetch_products_missing_pager no_pager same_text same_letter
                  50 1 4 fresh ltac:(lia) ltac:(constructor)
                  ltac:(vm_compute; reflexivity))).
  vm_compute; reflexivity.
Defined.

(** Page 2 of [two_pages] has a row without title and a row without
    options; only the second becomes a product. *)
Example fetch_products_rows_with_gaps :
  fst (fetch_products two_pages same_text same_letter 5 50 fresh)
    = Ok [primer; Product (u "Pro Git") ∅].
Proof. vm_compute. reflexivity. Qed.

(* ------------------------------------------------------------------ *)
(** ** More on directory names *)

Lemma allowed_is_ascii (c : N) : allowed c = true -> is_ascii c = true.
Proof.
  unfold allowed, in_range, is_ascii. intros H. apply N.ltb_lt.
  repeat (apply orb_prop in H as [H|H]);
    repeat (apply andb_prop in H as [H ?]);
    repeat match goal with
      | H : (_ =? _)%N = true |- _ => apply N.eqb_eq in H
      | H : (_ <=? _)%N = true |- _ => apply N.leb_le in H
      end; lia.
Qed.

Lemma allowed_not_space (c : N) : allowed c = true -> is_space c = false.
Proof.
  unfold allowed, is_space, in_range. intros H.
  apply orb_false_intro; [apply andb_false_iff|apply N.eqb_neq];
    repeat (apply orb_prop in H as [H|H]);
    repeat (apply andb_prop in H as [H ?]);
    repeat match goal with
      | H : (_ =? _)%N = true |- _ => apply N.eqb_eq in H
      | H : (_ <=? _)%N = true |- _ => apply N.leb_le in H
      end;
    try lia;
    try (rewrite N.leb_gt, N.leb_gt; lia).
Qed.

Lemma allowed_not_slash (c : N) : allowed c = true -> c <> 47%N.
Proof. intros H ->. discriminate. Qed.

Lemma encode_ascii_ignore_fixed (s : ustring) :
  Forall (fun c => allowed c = true) s -> encode_ascii_ignore s = s.
Proof.
  unfold encode_ascii_ignore. induction 1 as [|c r Hc _ IH]; [reflexivity|].
  cbn. rewrite (allowed_is_ascii _ Hc), IH. reflexivity.
Qed.

Lemma lstrip_fixed (s : ustring) :
  Forall (fun c => is_space c = false) s -> lstrip s = s.
Proof. destruct 1 as [|c r Hc _]; [reflexivity|]. cbn. rewrite Hc. reflexivity. Qed.

Lemma strip_fixed (s : ustring) :
  Forall (fun c => allowed c = true) s -> strip s = s.
Proof.
  intros H.
  assert (Hs : Forall (fun c => is_space c = false) s).
  { eapply Forall_impl; [exact H|]. apply allowed_not_space. }
  unfold strip, rstrip. rewrite (lstrip_fixed _ Hs), lstrip_fixed.
  - apply rev_involutive.
  - apply Forall_rev. exact Hs.
Qed.

Lemma re_sub_fixed (s : ustring) :
  Forall (fun c => allowed c = true) s -> re_sub disallowed (u "_") s = s.
Proof.
  unfold re_sub. induction 1 as [|c r Hc _ IH]; [reflexivity|].
  cbn [re_sub_plus]. unfold disallowed at 1. rewrite Hc. cbn [negb].
  rewrite IH. reflexivity.
Qed.

(** X1: A derived name is a fixed point: deriving a name from a name gives
    the name back. *)
Theorem name_of_title_idempotent (t : ustring) :
  name_of_title (name_of_title t) = name_of_title t.
Proof.
  pose proof (re_sub_plus_allowed false (strip (encode_ascii_ignore t))) as H.
  fold (re_sub disallowed (u "_") (strip (encode_ascii_ignore t))) in H.
  fold (name_of_title t) in H.
  unfold name_of_title at 1.
  rewrite (encode_ascii_ignore_fixed _ H), (strip_fixed _ H).
  apply re_sub_fixed, H.
Qed.

Lemma lstrip_nil_iff (s : ustring) :
  lstrip s = [] <-> Forall (fun c => is_space c = true) s.
Proof.
  induction s as [|c r IH]; [split; constructor|].
  cbn. destruct (is_space c) eqn:E.
  - rewrite IH. split; [intros H; constructor; assumption|].
    intros H. inversion H. assumption.
  - split; [discriminate|]. intros H. inversion H. congruence.
Qed.

Lemma lstrip_spaces (s : ustring) :
  Forall (fun c => is_space c = true) (lstrip s) ->
  Forall (fun c => is_space c = true) s.
Proof.
  induction s as [|c r IH]; [constructor|].
  cbn. destruct (is_space c) eqn:E; [|trivial].
  intros H. constructor; [exact E|apply IH, H].
Qed.

Lemma strip_nil_iff (s : ustring) :
  strip s = [] <-> Forall (fun c => is_space c = true) s.
Proof.
  unfold strip, rstrip. split.
  - intros H. apply (f_equal (@rev N)) in H. rewrite rev_involutive in H.
    cbn in H. apply lstrip_nil_iff in H. apply Forall_rev in H.
    rewrite rev_involutive in H. apply lstrip_spaces, H.
  - intros H. apply lstrip_nil_iff in H. rewrite H. reflexivity.
Qed.

Lemma re_sub_nil_iff (s : ustring) :
  re_sub disallowed (u "_") s = [] <-> s = [].
Proof.
  unfold re_sub. split; [|intros ->; reflexivity].
  destruct s as [|c r]; [reflexivity|]. cbn [re_sub_plus].
  destruct (disallowed c); discriminate.
Qed.

(** X2: The derived name is empty exactly when the title has nothing but
    non-ASCII characters and white space (the empty title included). *)
Theorem name_of_title_empty_iff (t : ustring) :
  name_of_title t = []
  <-> Forall (fun c => is_ascii c = false \/ is_space c = true) t.
Proof.
  unfold name_of_title. rewrite re_sub_nil_iff, strip_nil_iff.
  unfold encode_ascii_ignore. induction t as [|c r IH]; [split; constructor|].
  cbn. destruct (is_ascii c) eqn:E.
  - split; intros H; inversion H as [|? ? Hc Hr]; subst.
    + constructor; [right; exact Hc|apply IH, Hr].
    + constructor; [destruct Hc; congruence|apply IH, Hr].
  - rewrite IH. split; intros H.
    + constructor; [left; exact E|exact H].
    + inversion H. assumption.
Qed.

Lemma parent_no_slash (s : ustring) : 47%N ∉ s -> parent s = None.
Proof.
  induction s as [|c r IH]; [reflexivity|]. intros H.
  apply not_elem_of_cons in H as [Hc Hr]. cbn. rewrite (IH Hr).
  destruct (N.eqb_spec c 47); congruence.
Qed.

Lemma parent_app_slash (a b : ustring) :
  47%N ∉ b -> parent (a ++ 47%N :: b) = Some a.
Proof.
  intros Hb. induction a as [|c a IH].
  - cbn. rewrite (parent_no_slash _ Hb). reflexivity.
  - cbn [app parent]. rewrite IH. reflexivity.
Qed.

Lemma name_of_title_no_slash (t : ustring) : 47%N ∉ name_of_title t.
Proof.
  intros H. pose proof (re_sub_plus_allowed false (strip (encode_ascii_ignore t)))
    as Hall.
  rewrite Forall_forall in Hall. apply Hall in H. discriminate.
Qed.

Lemma product_dir_parent (path : ustring) (p : product) :
  parent (product_dir path p) = Some path.
Proof. apply parent_app_slash, name_of_title_no_slash. Qed.



(* ------------------------------------------------------------------ *)
(** ** More on streaming and downloading *)

Lemma concat_nonempty (chunks : list bytes) :
  List.concat (List.filter nonempty chunks) = List.concat chunks.
Proof.
  induction chunks as [|c cs IH]; [reflexivity|].
  cbn. destruct c; cbn; rewrite IH; reflexivity.
Qed.

Lemma disk_kept_preserved (m m' : gmap ustring node) :
  disk_kept m m' -> disk_preserved m m'.
Proof.
  intros K p. specialize (K p). unfold isfile in *.
  destruct (m !! p) as [[d|]|]; split; try discriminate; auto.
Qed.

Lemma disk_preserved_refl (m : gmap ustring node) : disk_preserved m m.
Proof. intros p. auto. Qed.

Lemma disk_preserved_trans (m1 m2 m3 : gmap ustring node) :
  disk_preserved m1 m2 -> disk_preserved m2 m3 -> disk_preserved m1 m3.
Proof.
  intros H12 H23 p. destruct (H12 p), (H23 p). auto.
Qed.

Lemma mkdir_preserved (m d : gmap ustring node) (p : ustring) :
  mkdir m p = inr d -> disk_preserved m d /\ forall q, isfile d q = isfile m q.
Proof.
  unfold mkdir. destruct (m !! p) eqn:E; [discriminate|].
  destruct (parent_error m p); [discriminate|]. intros [= <-].
  assert (Hf : forall q, isfile (<[p:=Dir]> m) q = isfile m q).
  { intros q. unfold isfile. destruct (decide (p = q)) as [<-|Hne].
    - rewrite lookup_insert_eq, E. reflexivity.
    - rewrite lookup_insert_ne by exact Hne. reflexivity. }
  split; [|exact Hf]. intros q. split.
  - intros Hq. destruct (decide (p = q)) as [<-|Hne].
    + apply lookup_insert_eq.
    + rewrite lookup_insert_ne by exact Hne. exact Hq.
  - rewrite Hf. trivial.
Qed.

Section StreamMore.

Variable site : request -> response.

(** X4: When the destination cannot be opened, [stream_file] raises the
    [IOError] only after the GET has been sent; the disk is as it was and
    nothing has been written. *)
Theorem stream_file_unopenable (url filename : ustring) (s : state)
    (e : errno) :
  open_wb (fs s) filename = inl e ->
  exists s',
    stream_file site url filename s = (Raise (IOError e), s')
    /\ sent s' = sent s ++ [GET url true true]
    /\ fs s' = fs s /\ written s' = written s.
Proof.
  intros H. rewrite stream_file_cases. cbv zeta. rewrite H.
  eexists. split; [reflexivity|]. repeat split.
Qed.

(** X5: Whether it ends normally or raises, [stream_file] sends exactly one
    request, its writes all go to the destination, and every other path
    of the disk is left as it was. *)
Theorem stream_file_local (url filename : ustring) (s : state) :
  let s' := snd (stream_file site url filename s) in
  sent s' = sent s ++ [GET url true true]
  /\ (forall q, q <> filename -> fs s' !! q = fs s !! q)
  /\ exists chunks, written s' = written s ++ map (pair filename) chunks.
Proof.
  cbv zeta. rewrite stream_file_cases. cbv zeta.
  destruct (open_wb (fs s) filename); cbn.
  - split; [reflexivity|]. split; [reflexivity|]. exists [].
    rewrite app_nil_r. reflexivity.
  - split; [reflexivity|]. split; [|eexists; reflexivity].
    intros q Hq. apply lookup_insert_ne. congruence.
Qed.

(** What one turn of the loop over the links does, in full. *)
Lemma download_link_effect (overwrite : bool) (filename extension url : ustring)
    (s : state) :
  download_link site overwrite filename (extension, url) s =
    let target := filename ++ extension in
    if negb (isfile (fs s) target) || overwrite then
      let s1 := logged [LogRecord DEBUG "Downloading '%s' to '%s'"
                          [ArgStr url; ArgStr target]]
                  (requested [GET url true true] s) in
      match open_wb (fs s) target with
      | inl e => (Raise (IOError e), s1)
      | inr _ =>
          (Ok tt,
           {| fs := <[target := File (body_of site url)]> (fs s);
              sent := sent s1; log := log s1;
              written := written s
                ++ map (pair target)
                     (List.filter nonempty
                        (resp_chunks (site (GET url true true)))) |})
      end
    else (Ok tt, logged [skip_record target] s).
Proof.
  cbv zeta. destruct (negb (isfile (fs s) (filename ++ extension)) || overwrite)
    eqn:E.
  - rewrite download_link_stream.
    + unfold bind. rewrite stream_file_cases. cbv zeta.
      destruct (open_wb (fs s) (filename ++ extension)); [reflexivity|].
      unfold body_of. rewrite concat_nonempty. reflexivity.
    + apply orb_prop in E as [E|E]; [left|right; exact E].
      apply negb_true_iff, E.
  - apply orb_false_elim in E as [E ->]. apply negb_false_iff in E.
    apply download_link_skip, E.
Qed.

Lemma download_link_kept (overwrite : bool) (filename : ustring)
    (item : ustring * ustring) (s : state) :
  disk_kept (fs s) (fs (snd (download_link site overwrite filename item s))).
Proof.
  destruct item as [extension url]. rewrite download_link_effect. cbv zeta.
  destruct (negb (isfile (fs s) (filename ++ extension)) || overwrite);
    [|apply disk_kept_refl].
  destruct (open_wb (fs s) (filename ++ extension)) eqn:E;
    [apply disk_kept_refl|].
  exact (disk_kept_open _ _ _ _ E).
Qed.

Lemma download_links_kept (overwrite : bool) (filename : ustring)
    (items : list (ustring * ustring)) (s : state) :
  disk_kept (fs s)
    (fs (snd (for_each (download_link site overwrite filename) items s))).
Proof.
  revert s. induction items as [|item items IH]; intros s;
    [apply disk_kept_refl|].
  cbn [for_each]. unfold bind.
  pose proof (download_link_kept overwrite filename item s) as K.
  destruct (download_link site overwrite filename item s) as [[[]| |] s1];
    cbn [snd] in *; try exact K.
  exact (disk_kept_trans _ _ _ K (IH s1)).
Qed.

(** X6: [download_product] removes nothing: however it ends, each directory
    of the disk is still a directory and each file is still a file. *)
Theorem download_product_keeps_disk (overwrite : bool) (p : product)
    (path : ustring) (s : state) :
  disk_preserved (fs s)
    (fs (snd (download_product site overwrite p path s))).
Proof.
  rewrite download_product_unfold.
  eapply disk_preserved_trans;
    [|apply disk_kept_preserved, download_links_kept].
  cbn [fs logged]. destruct (mkdir (fs s) (product_dir path p)) eqn:E;
    [apply disk_preserved_refl|].
  apply (mkdir_preserved _ _ _ E).
Qed.

End StreamMore.

Lemma wanted_ext (overwrite : bool) (d1 d2 : gmap ustring node)
    (filename : ustring) (items : list (ustring * ustring)) :
  (forall item, item ∈ items ->
     isfile d1 (filename ++ fst item) = isfile d2 (filename ++ fst item)) ->
  wanted overwrite d1 filename items = wanted overwrite d2 filename items.
Proof.
  unfold wanted. induction items as [|item items IH]; intros H; [reflexivity|].
  cbn. rewrite (H item) by left. rewrite IH; [reflexivity|].
  intros it Hin. apply H. right. exact Hin.
Qed.

Lemma isfile_insert_ne (d : gmap ustring node) (p q : ustring) (n : node) :
  p <> q -> isfile (<[p := n]> d) q = isfile d q.
Proof. intros H. unfold isfile. rewrite lookup_insert_ne by exact H. reflexivity. Qed.

Section DownloadMore.

Variable site : request -> response.

Lemma download_links_sent (overwrite : bool) (filename : ustring)
    (items : list (ustring * ustring)) (s s' : state) :
  NoDup (map fst items) ->
  for_each (download_link site overwrite filename) items s = (Ok tt, s') ->
  sent s' = sent s
    ++ map (fun item => GET (snd item) true true)
         (wanted overwrite (fs s) filename items)
  /\ written s' = written s
       ++ flat_map (fun item => map (pair (filename ++ fst item))
                      (List.filter nonempty
                         (resp_chunks (site (GET (snd item) true true)))))
            (wanted overwrite (fs s) filename items).
Proof.
  revert s. induction items as [|[extension url] items IH]; intros s Hnd H.
  - injection H as <-. cbn. rewrite !app_nil_r. split; reflexivity.
  - cbn [map fst] in Hnd. apply NoDup_cons in Hnd as [Hnew Hnd].
    cbn [for_each] in H. unfold bind in H.
    rewrite download_link_effect in H. cbv zeta in H.
    unfold wanted. cbn [List.filter fst].
    destruct (negb (isfile (fs s) (filename ++ extension)) || overwrite).
    + destruct (open_wb (fs s) (filename ++ extension)); [discriminate|].
      apply (IH _ Hnd) in H. cbn [fs sent written logged requested] in H.
      rewrite (wanted_ext _ _ (fs s)) in H.
      * destruct H as [-> ->]. cbn [map flat_map snd fst].
        rewrite <- !app_assoc. split; reflexivity.
      * intros [ext' url'] Hin. cbn [fst]. apply isfile_insert_ne.
        intros Heq. apply app_inv_head in Heq. subst ext'.
        apply Hnew. apply list_elem_of_fmap. exists (extension, url').
        split; [reflexivity|exact Hin].
    + apply (IH _ Hnd) in H. cbn [fs sent written logged] in H. exact H.
Qed.

(** X7: When [download_product] ends normally, the requests it has sent are
    exactly those for the links whose target was not a file when it
    began (for all links, with overwrite on), and all its writes went to
    those targets. *)
Theorem download_product_requests (overwrite : bool) (p : product)
    (path : ustring) (s s' : state) :
  download_product site overwrite p path s = (Ok tt, s') ->
  let todo := wanted overwrite (fs s) (product_filename path p)
                (map_to_list (links p)) in
  sent s' = sent s ++ map (fun item => GET (snd item) true true) todo
  /\ written s' = written s
       ++ flat_map (fun item =>
                      map (pair (product_filename path p ++ fst item))
                        (List.filter nonempty
                           (resp_chunks (site (GET (snd item) true true)))))
            todo.
Proof.
  intros H. cbv zeta. rewrite download_product_unfold in H.
  apply download_links_sent in H; [|apply NoDup_fst_map_to_list].
  cbn [fs sent written logged] in H.
  destruct (mkdir (fs s) (product_dir path p)) as [e|d] eqn:E; [exact H|].
  cbn [fs sent written set_fs] in H.
  rewrite (wanted_ext _ d (fs s)) in H; [exact H|].
  intros item _. apply (mkdir_preserved _ _ _ E).
Qed.



(** After a run that ended normally, the directory cannot be made again
    and every target is a file. *)
Lemma download_product_settled (overwrite : bool) (p : product)
    (path : ustring) (s0 s1 : state) :
  download_product site overwrite p path s0 = (Ok tt, s1) ->
  (exists e, mkdir (fs s1) (product_dir path p) = inl e)
  /\ forall item, item ∈ map_to_list (links p) ->
       isfile (fs s1) (product_filename path p ++ fst item) = true.
Proof.
  intros H. rewrite download_product_unfold in H.
  match type of H with for_each ?f ?l ?st = _ =>
    destruct (download_links_cases site overwrite (product_filename path p) l st)
      as [(s' & H' & K & F)|(e & s' & H')] end;
    rewrite H' in H; [|discriminate].
  injection H as ->. cbn [fs logged] in K. split; [|exact F].
  destruct (mkdir (fs s0) (product_dir path p)) as [e|d] eqn:E.
  - exact (mkdir_fails_kept _ _ _ _ E K).
  - apply mkdir_made in E. specialize (K (product_dir path p)).
    cbn [fs set_fs] in K. rewrite E in K. unfold mkdir. rewrite K.
    eexists. reflexivity.
Qed.

(** X9: Two products whose titles give the same directory name share their
    files: after a normal run on the first, with overwrite off, a run on
    the second sends no request and writes nothing if each of its format
    labels is also a label of the first -- whatever its URLs are. *)
Theorem download_product_same_name (overwrite : bool) (p q : product)
    (path : ustring) (s0 s1 : state) :
  name_of_title (title q) = name_of_title (title p) ->
  (forall extension, is_Some (links q !! extension) ->
                     is_Some (links p !! extension)) ->
  download_product site overwrite p path s0 = (Ok tt, s1) ->
  download_product site false q path s1 =
    (Ok tt,
     logged (downloading_record q
             :: map (fun item =>
                       skip_record (product_filename path q ++ fst item))
                  (map_to_list (links q))) s1).
Proof.
  intros Hname Hsub H. apply download_product_settled in H as [[e Hmk] Hfiles].
  assert (Hd : product_dir path q = product_dir path p)
    by (unfold product_dir; rewrite Hname; reflexivity).
  assert (Hf : product_filename path q = product_filename path p)
    by (unfold product_filename; rewrite Hname; reflexivity).
  rewrite download_product_unfold, Hd, Hmk, download_links_present.
  - rewrite logged_logged. reflexivity.
  - intros [extension url] Hin. cbn [fst]. rewrite Hf.
    apply elem_of_map_to_list in Hin.
    destruct (Hsub extension ltac:(eexists; exact Hin)) as [url' Hp].
    apply elem_of_map_to_list in Hp. apply (Hfiles _ Hp).
Qed.

End DownloadMore.

(* ------------------------------------------------------------------ *)
(** ** More on the catalogue loop *)

Lemma u_inj (a b : string) : u a = u b -> a = b.
Proof.
  assert (H : forall c, string_of_list_ascii (map ascii_of_N (u c)) = c).
  { intros c. unfold u. rewrite map_map.
    rewrite (map_ext _ id) by (intros x; apply ascii_N_embedding).
    rewrite map_id. apply string_of_list_ascii_of_string. }
  intros E. rewrite <- (H a), <- (H b), E. reflexivity.
Qed.

Lemma dec_inj (x y : Z) : dec x = dec y -> x = y.
Proof.
  unfold dec. intros H. apply u_inj in H.
  apply (f_equal NilZero.int_of_string) in H.
  assert (Hnil : forall z, Z.to_int z <> Decimal.Pos Decimal.Nil
                           /\ Z.to_int z <> Decimal.Neg Decimal.Nil).
  { intros [|q|q]; cbn; split; try discriminate;
      intros [= E]; exact (DecimalPos.Unsigned.to_uint_nonnil _ E). }
  rewrite !NilZero.isi in H by apply Hnil.
  injection H as H. apply (f_equal Z.of_int) in H.
  rewrite !DecimalZ.of_to in H. exact H.
Qed.

(** X10: The URLs of two different page numbers are different, so no page is
    fetched under the address of another. *)
Theorem listing_url_inj (limit p q : Z) :
  listing_url limit p = listing_url limit q -> p = q.
Proof.
  unfold listing_url. intros H.
  do 3 apply app_inv_head in H. apply dec_inj, H.
Qed.

Section ListingMore.

Variable site : request -> response.
Variable unescape : ustring -> ustring.
Variable unicode_lower : N -> N.

(** However the loop ends -- normally, with an exception, or never --
    the disk and the writes are as they were, the log has only grown,
    and the requests sent are those for the pages [p], [p+1], ... in
    order, at most one per turn. *)
Lemma fetch_loop_effects (fuel : nat) (limit p : Z) (acc : list product)
    (s : state) :
  let s' := snd (fetch_loop site unescape unicode_lower fuel limit p acc s) in
  fs s' = fs s /\ written s' = written s
  /\ (exists l, log s' = log s ++ l)
  /\ exists k, (k <= fuel)%nat
       /\ sent s' = sent s ++ map (listing_request limit) (page_numbers p k).
Proof.
  cbv zeta. revert p acc s. induction fuel as [|fuel IH]; intros p acc s.
  - cbn. repeat split; [exists []|exists 0%nat]; rewrite ?app_nil_r; auto.
  - rewrite fetch_loop_unfold. cbv zeta.
    assert (Hone : forall (r : result (list product)) l,
              let s1 := (r, logged l (requested [listing_request limit p] s)) in
              fs (snd s1) = fs s /\ written (snd s1) = written s
              /\ (exists l0, log (snd s1) = log s ++ l0)
              /\ exists k, (k <= S fuel)%nat
                   /\ sent (snd s1) = sent s
                        ++ map (listing_request limit) (page_numbers p k)).
    { intros r l. cbn. repeat split; [eexists; reflexivity|].
      exists 1%nat. split; [lia|reflexivity]. }
    destruct (nonempty (soup_rows (page_at site limit p)));
      [|rewrite logged_logged; apply (Hone (Ok acc))].
    match goal with |- context [for_fold ?f ?l ?a ?st] =>
      destruct (parse_rows_cases unescape unicode_lower l a st)
        as [[_ Hp]|[_ [l' Hp]]] end; rewrite Hp, logged_logged;
      [|apply (Hone (Raise (KeyError "value")))].
    destruct (soup_pager (page_at site limit p)) as [d|];
      [|apply (Hone (Raise AttributeError))].
    destruct (has_next (pager_pages d)); [|apply (Hone (Ok _))].
    match goal with |- context [fetch_loop _ _ _ fuel limit (p + 1)%Z ?a ?st] =>
      destruct (IH (p + 1)%Z a st) as (Hfs & Hwr & [l0 Hlog] & k & Hk & Hsent)
    end.
    rewrite Hfs, Hwr, Hlog, Hsent. cbn [fs sent log written logged requested].
    repeat split.
    + eexists. rewrite <- app_assoc. reflexivity.
    + exists (S k). split; [lia|]. cbn [page_numbers map].
      rewrite <- app_assoc. reflexivity.
Qed.

(** X11: [fetch_products] leaves the disk alone and writes nothing, however
    it ends; what it sends are the requests for pages 1, 2, ..., k in
    this order, for some k within the loop bound: no page is skipped and
    none is asked for twice. *)
Theorem fetch_products_effects (fuel : nat) (limit : Z) (s : state) :
  let s' := snd (fetch_products site unescape unicode_lower fuel limit s) in
  fs s' = fs s /\ written s' = written s
  /\ (exists l, log s' = log s ++ l)
  /\ exists k, (k <= fuel)%nat
       /\ sent s' = sent s ++ map (listing_request limit) (page_numbers 1 k).
Proof. apply fetch_loop_effects. Qed.

Lemma pages_continue_all (limit p : Z) (n : nat) :
  (forall q, (p <= q)%Z ->
     rows_ok (page_at site limit q) = true
     /\ next_control (page_at site limit q) = true) ->
  pages_continue site limit p n.
Proof.
  revert p. induction n as [|n IH]; intros p H; [constructor|].
  unfold pages_continue. cbn [page_numbers]. constructor.
  - apply H. lia.
  - apply IH. intros q Hq. apply H. lia.
Qed.

(** X12: If every page has readable rows and a "next" item, the loop never
    ends: whatever the bound, it is used up, with one request for each
    page up to it. *)
Theorem fetch_products_never_ends (limit : Z) (fuel : nat) (s : state) :
  (forall q, (1 <= q)%Z ->
     rows_ok (page_at site limit q) = true
     /\ next_control (page_at site limit q) = true) ->
  fetch_products site unescape unicode_lower fuel limit s =
    (Diverge, fetched site limit (page_numbers 1 fuel) s).
Proof.
  intros H. unfold fetch_products.
  replace fuel with (fuel + 0)%nat at 1 by lia.
  rewrite (fetch_loop_prefix site unescape unicode_lower fuel 0 limit 1 [] s)
    by (apply pages_continue_all, H).
  reflexivity.
Qed.

Lemma rows_not_ok (rows : list table_row) (row : table_row) (t : ustring)
    (o : option_tag) :
  row ∈ rows -> row_title row = Some t -> o ∈ row_opts row ->
  opt_value o = None ->
  nonempty rows = true /\ forallb row_ok rows = false.
Proof.
  intros Hrow Ht Ho Hv. split; [destruct rows; [inversion Hrow|reflexivity]|].
  destruct (forallb row_ok rows) eqn:E; [|reflexivity].
  rewrite forallb_forall in E. apply list_elem_of_In in Hrow.
  specialize (E _ Hrow). unfold row_ok in E. rewrite Ht in E.
  rewrite forallb_forall in E. apply list_elem_of_In in Ho.
  specialize (E _ Ho). unfold opt_valued in E. rewrite Hv in E. discriminate.
Qed.

(** X13: When pages 1..k-1 continue and some row of page k has a title and an
    option without a value attribute, [fetch_products] raises
    [KeyError] for 'value' after the request for page k, whatever the
    pager says: the products read so far are not returned. *)
Theorem fetch_products_missing_value (limit : Z) (k fuel : nat) (s : state)
    (row : table_row) (t : ustring) (o : option_tag) :
  (0 < k)%nat ->
  pages_continue site limit 1 (k - 1) ->
  row ∈ soup_rows (page_at site limit (Z.of_nat k)) ->
  row_title row = Some t -> o ∈ row_opts row -> opt_value o = None ->
  (k <= fuel)%nat ->
  exists s',
    fetch_products site unescape unicode_lower fuel limit s
      = (Raise (KeyError "value"), s')
    /\ sent s' = sent s ++ map (listing_request limit) (page_numbers 1 k).
Proof.
  intros Hk Hpre Hrow Ht Ho Hv Hfuel.
  destruct (rows_not_ok _ _ _ _ Hrow Ht Ho Hv) as [Hne Hbad].
  destruct k as [|m]; [lia|]. cbn [Nat.sub] in Hpre.
  rewrite Nat.sub_0_r in Hpre.
  replace fuel with (m + S (fuel - S m))%nat by lia.
  unfold fetch_products.
  rewrite (fetch_loop_prefix site unescape unicode_lower _ _ _ _ _ _ Hpre).
  assert (Hnum : (1 + Z.of_nat m)%Z = Z.of_nat (S m)) by lia.
  rewrite Hnum, fetch_loop_unfold. cbv zeta. rewrite Hne.
  match goal with |- context [for_fold ?f ?l ?a ?st] =>
    destruct (parse_rows_cases unescape unicode_lower l a st)
      as [[Hok _]|[_ [l' Hp]]] end; [congruence|].
  rewrite Hp. eexists. split; [reflexivity|].
  unfold fetched, logged, requested. cbn [fs sent log written].
  rewrite (page_numbers_snoc 1 m), map_app, Hnum, <- !app_assoc.
  reflexivity.
Qed.

Lemma put_links_other (opts : list option_tag) (m : gmap ustring ustring)
    (k : ustring) :
  Forall (fun o => lower unicode_lower (opt_text o) <> k) opts ->
  foldl (put_link unicode_lower) m opts !! k = m !! k.
Proof.
  intros H. revert m. induction H as [|o opts Ho _ IH]; intros m; [reflexivity|].
  cbn [foldl]. rewrite IH. unfold put_link. destruct (opt_value o); [|reflexivity].
  apply lookup_insert_ne, Ho.
Qed.

(** X14: Format labels are keys after lower-casing, and a later option
    replaces an earlier one with the same key: in the product read from
    a row, the entry for a label is the value of the last option that
    has it. *)
Theorem parse_row_last_wins (row : table_row) (t : ustring)
    (before after : list option_tag) (o : option_tag) (v : ustring)
    (acc : list product) (s : state) :
  row_title row = Some t ->
  row_opts row = before ++ o :: after ->
  row_ok row = true ->
  opt_value o = Some v ->
  Forall (fun o' => lower unicode_lower (opt_text o')
                    <> lower unicode_lower (opt_text o)) after ->
  exists lnk,
    parse_row unescape unicode_lower row acc s =
      (Ok (acc ++ [Product (unescape t) lnk]), logged (row_log row) s)
    /\ lnk !! lower unicode_lower (opt_text o) = Some v.
Proof.
  intros Ht Hopts Hok Hv Hafter.
  rewrite (parse_row_ok unescape unicode_lower _ _ _ Hok).
  unfold row_products. rewrite Ht. eexists. split; [reflexivity|].
  unfold links_of. rewrite Hopts, foldl_app. cbn [foldl].
  rewrite (put_links_other _ _ _ Hafter). unfold put_link at 1. rewrite Hv.
  apply lookup_insert_eq.
Qed.

End ListingMore.

(* ------------------------------------------------------------------ *)
(** ** The whole run: [start] and [main] *)

Lemma disk_preserved_present (m m' : gmap ustring node) (p : ustring) :
  disk_preserved m m' -> is_Some (m !! p) -> is_Some (m' !! p).
Proof.
  intros H [n Hn]. destruct (H p) as [Hd Hf]. destruct n as [data|].
  - unfold isfile in Hf. rewrite Hn in Hf. specialize (Hf eq_refl).
    destruct (m' !! p) as [[d|]|]; try discriminate. eexists. reflexivity.
  - rewrite (Hd Hn). eexists. reflexivity.
Qed.

Lemma os_mkdir_effects (p : ustring) (s : state) :
  let s' := snd (os_mkdir p s) in
  sent s' = sent s /\ log s' = log s /\ written s' = written s
  /\ disk_preserved (fs s) (fs s').
Proof.
  cbv zeta. unfold os_mkdir. destruct (mkdir (fs s) p) as [e|d] eqn:E; cbn.
  - repeat split; apply disk_preserved_refl.
  - repeat split; apply (mkdir_preserved _ _ _ E).
Qed.

Lemma os_makedirs_n_unfold (n : nat) (p : ustring) (s : state) :
  os_makedirs_n (S n) p s =
    match parent p with
    | Some (c :: q) =>
        if bool_decide (is_Some (fs s !! (c :: q))) then os_mkdir p s
        else
          match os_makedirs_n n (c :: q) s with
          | (Ok _, s1) => os_mkdir p s1
          | (Raise (OSError EEXIST), s1) => os_mkdir p s1
          | r => r
          end
    | _ => os_mkdir p s
    end.
Proof.
  cbn [os_makedirs_n]. destruct (parent p) as [[|c q]|]; try reflexivity.
  unfold bind at 1. destruct (bool_decide (is_Some (fs s !! (c :: q))));
    [reflexivity|].
  unfold bind. destruct (os_makedirs_n n (c :: q) s) as [[[]|e|] s1];
    try reflexivity.
  destruct e as [[]| | |]; reflexivity.
Qed.

(** Making directories sends nothing, logs nothing, writes no file and
    removes nothing. *)
Lemma os_makedirs_n_effects (n : nat) (p : ustring) (s : state) :
  let s' := snd (os_makedirs_n n p s) in
  sent s' = sent s /\ log s' = log s /\ written s' = written s
  /\ disk_preserved (fs s) (fs s').
Proof.
  cbv zeta. revert p s. induction n as [|n IH]; intros p s.
  - cbn [os_makedirs_n]. destruct (parent p) as [[|c q]|];
      apply os_mkdir_effects.
  - rewrite os_makedirs_n_unfold. destruct (parent p) as [[|c q]|];
      try apply os_mkdir_effects.
    destruct (bool_decide (is_Some (fs s !! (c :: q))));
      [apply os_mkdir_effects|].
    destruct (IH (c :: q) s) as (H1 & H2 & H3 & H4).
    assert (Hthen : forall s1,
              sent s1 = sent s -> log s1 = log s -> written s1 = written s ->
              disk_preserved (fs s) (fs s1) ->
              sent (snd (os_mkdir p s1)) = sent s
              /\ log (snd (os_mkdir p s1)) = log s
              /\ written (snd (os_mkdir p s1)) = written s
              /\ disk_preserved (fs s) (fs (snd (os_mkdir p s1)))).
    { intros s1 E1 E2 E3 E4.
      destruct (os_mkdir_effects p s1) as (G1 & G2 & G3 & G4).
      rewrite G1, G2, G3.
      split; [assumption|]. split; [assumption|]. split; [assumption|].
      exact (disk_preserved_trans _ _ _ E4 G4). }
    destruct (os_makedirs_n n (c :: q) s) as [[[]|e|] s1]; cbn [snd] in *.
    + apply Hthen; assumption.
    + destruct e as [[]| | |]; cbn [snd];
        try (split; [assumption|]; split; [assumption|]; split; assumption).
      apply Hthen; assumption.
    + split; [assumption|]. split; [assumption|]. split; assumption.
Qed.

Lemma ensure_path_effects (path : ustring) (s : state) :
  let s' := snd (ensure_path path s) in
  sent s' = sent s /\ log s' = log s /\ written s' = written s
  /\ disk_preserved (fs s) (fs s').
Proof.
  cbv zeta. unfold ensure_path, bind, os_path_isdir.
  destruct (isdir (fs s) path); cbn [negb].
  - repeat split; apply disk_preserved_refl.
  - apply os_makedirs_n_effects.
Qed.

Lemma ensure_path_present (path : ustring) (s : state) :
  isdir (fs s) path = true -> ensure_path path s = (Ok tt, s).
Proof.
  intros H. unfold ensure_path, bind, os_path_isdir. rewrite H. reflexivity.
Qed.

Section ScriptFacts.

Variable site : request -> response.
Variable unescape : ustring -> ustring.
Variable unicode_lower : N -> N.

(** The outcome of the loop does not depend on the state it starts
    from, and its effect on the state is to add requests and log
    records. *)
Lemma fetch_loop_uniform (fuel : nat) (limit p : Z) (acc : list product) :
  exists r k lg,
    (k <= fuel)%nat
    /\ forall s,
         fetch_loop site unescape unicode_lower fuel limit p acc s =
           (r, logged lg
                 (requested (map (listing_request limit) (page_numbers p k)) s)).
Proof.
  revert p acc. induction fuel as [|fuel IH]; intros p acc.
  - exists Diverge, 0%nat, []. split; [lia|]. intros [d rq lg wr].
    cbn. unfold logged, requested. cbn. rewrite !app_nil_r. reflexivity.
  - assert (Hone : forall (r : result (list product)) l,
              exists r' k lg, (k <= S fuel)%nat /\ forall s,
                (r, logged l (logged [LogRecord INFO "Fetching products page %d..."
                                       [ArgInt p]]
                                (requested [listing_request limit p] s)))
                = (r', logged lg (requested (map (listing_request limit)
                                               (page_numbers p k)) s))).
    { intros r l. exists r, 1%nat. eexists. split; [lia|]. intros s.
      rewrite logged_logged. reflexivity. }
    destruct (nonempty (soup_rows (page_at site limit p))) eqn:Hne.
    + destruct (forallb row_ok (soup_rows (page_at site limit p))) eqn:Hok.
      * destruct (soup_pager (page_at site limit p)) as [d|] eqn:Hpg.
        -- destruct (has_next (pager_pages d)) eqn:Hnx.
           ++ destruct (IH (p + 1)%Z
                          (acc ++ page_products unescape unicode_lower
                                    (page_at site limit p)))
                as (r & k & lg & Hk & Hrun).
              exists r, (S k). eexists. split; [lia|]. intros s.
              rewrite fetch_loop_continue.
              ** rewrite Hrun. unfold fetched, logged, requested.
                 cbn [fs sent log written page_numbers map].
                 rewrite <- !app_assoc. reflexivity.
              ** unfold rows_ok. rewrite Hne, Hok. reflexivity.
              ** unfold next_control. rewrite Hpg. exact Hnx.
           ++ exists (Ok (acc ++ page_products unescape unicode_lower
                                   (page_at site limit p))), 1%nat.
              eexists. split; [lia|]. intros s. rewrite fetch_loop_stop.
              ** unfold fetched. reflexivity.
              ** unfold rows_ok. rewrite Hne, Hok. reflexivity.
              ** unfold pager_without_next. rewrite Hpg, Hnx. reflexivity.
        -- exists (Raise AttributeError), 1%nat. eexists. split; [lia|].
           intros s. rewrite fetch_loop_unfold. cbv zeta.
           rewrite Hne, (parse_rows_ok _ _ _ _ _ Hok), Hpg, logged_logged.
           reflexivity.
      * exists (Raise (KeyError "value")), 1%nat.
        assert (Hl : exists l, forall a s,
                  for_fold (parse_row unescape unicode_lower)
                    (soup_rows (page_at site limit p)) a s
                  = (Raise (KeyError "value"), logged l s)).
        { clear Hne IH Hone. revert Hok.
          induction (soup_rows (page_at site limit p)) as [|row rows IHr];
            intros Hok; [discriminate|].
          cbn in Hok. destruct (row_ok row) eqn:Hrow.
          - cbn in Hok. destruct (IHr Hok) as [l Hl].
            exists (row_log row ++ l). intros a s. cbn [for_fold].
            unfold bind. rewrite (parse_row_ok _ _ _ _ _ Hrow), Hl, logged_logged.
            reflexivity.
          - exists (row_log row). intros a s. cbn [for_fold]. unfold bind.
            destruct (parse_row_cases unescape unicode_lower row a s)
              as [[Hr _]|[_ Hp]]; [congruence|]. rewrite Hp. reflexivity. }
        destruct Hl as [l Hl]. eexists. split; [lia|]. intros s.
        rewrite fetch_loop_unfold. cbv zeta. rewrite Hne, Hl, logged_logged.
        reflexivity.
    + exists (Ok acc), 1%nat. eexists. split; [lia|]. intros s.
      rewrite fetch_loop_unfold. cbv zeta. rewrite Hne, logged_logged.
      reflexivity.
Qed.

End ScriptFacts.

Section RunFacts.

Variable site : request -> response.
Variable unescape : ustring -> ustring.
Variable unicode_lower : N -> N.

Lemma download_product_preserves (overwrite : bool) (p : product)
    (path : ustring) (s : state) :
  disk_preserved (fs s)
    (fs (snd (download_product site overwrite p path s))).
Proof.
  rewrite download_product_unfold.
  eapply disk_preserved_trans;
    [|apply disk_kept_preserved, download_links_kept].
  cbn [fs logged]. destruct (mkdir (fs s) (product_dir path p)) eqn:E;
    [apply disk_preserved_refl|].
  apply (mkdir_preserved _ _ _ E).
Qed.

Lemma download_products_preserve (overwrite : bool) (products : list product)
    (path : ustring) (s : state) :
  disk_preserved (fs s)
    (fs (snd (for_each (fun p => download_product site overwrite p path)
                products s))).
Proof.
  revert s. induction products as [|p products IH]; intros s;
    [apply disk_preserved_refl|].
  cbn [for_each]. unfold bind.
  pose proof (download_product_preserves overwrite p path s) as K.
  destruct (download_product site overwrite p path s) as [[[]| |] s1];
    cbn [snd] in *; try exact K.
  exact (disk_preserved_trans _ _ _ K (IH s1)).
Qed.

(** Under a base path that is a directory, the directory of a product
    is on the disk after [download_product], however it ended. *)
Lemma download_product_dir_present (overwrite : bool) (p : product)
    (path : ustring) (s : state) :
  fs s !! path = Some Dir ->
  is_Some (fs (snd (download_product site overwrite p path s))
             !! product_dir path p).
Proof.
  intros Hpath. rewrite download_product_unfold.
  eapply disk_preserved_present;
    [apply disk_kept_preserved, download_links_kept|].
  cbn [fs logged]. destruct (mkdir (fs s) (product_dir path p)) as [e|d] eqn:E.
  - unfold mkdir, parent_error in E.
    destruct (fs s !! product_dir path p); [eexists; reflexivity|].
    rewrite product_dir_parent, Hpath in E. discriminate.
  - cbn [fs set_fs]. rewrite (mkdir_made _ _ _ E). eexists. reflexivity.
Qed.

Lemma download_products_done (overwrite : bool) (products : list product)
    (path : ustring) (s s' : state) :
  for_each (fun p => download_product site overwrite p path) products s
    = (Ok tt, s') ->
  forall p, p ∈ products ->
    (fs s !! path = Some Dir -> is_Some (fs s' !! product_dir path p))
    /\ forall item, item ∈ map_to_list (links p) ->
         isfile (fs s') (product_filename path p ++ fst item) = true.
Proof.
  revert s. induction products as [|p0 products IH]; intros s H p Hin;
    [inversion Hin|].
  cbn [for_each] in H. unfold bind in H.
  pose proof (download_product_preserves overwrite p0 path s) as K0.
  pose proof (download_product_dir_present overwrite p0 path s) as D0.
  destruct (download_product site overwrite p0 path s) as [[[]| |] s1] eqn:E;
    try discriminate. cbn [snd] in *.
  pose proof (download_products_preserve overwrite products path s1) as K1.
  rewrite H in K1. cbn [snd] in K1.
  apply elem_of_cons in Hin as [->|Hin].
  - split.
    + intros Hpath. exact (disk_preserved_present _ _ _ K1 (D0 Hpath)).
    + intros item Hitem.
      destruct (download_product_settled site _ _ _ _ _ E) as [_ Hfiles].
      apply (K1 _), Hfiles, Hitem.
  - destruct (IH s1 H p Hin) as [Hd Hf]. split; [|exact Hf].
    intros Hpath. apply Hd. apply (K0 path), Hpath.
Qed.

Lemma download_products_present (products : list product) (path : ustring)
    (s : state) :
  (forall p, p ∈ products ->
     is_Some (fs s !! product_dir path p)
     /\ forall item, item ∈ map_to_list (links p) ->
          isfile (fs s) (product_filename path p ++ fst item) = true) ->
  exists lg,
    for_each (fun p => download_product site false p path) products s
      = (Ok tt, logged lg s).
Proof.
  revert s. induction products as [|p products IH]; intros s H.
  - exists []. destruct s. unfold logged. cbn. rewrite app_nil_r. reflexivity.
  - destruct (H p ltac:(left)) as [[n Hn] Hfiles].
    cbn [for_each]. unfold bind.
    rewrite download_product_unfold. unfold mkdir at 1. rewrite Hn.
    rewrite download_links_present by exact Hfiles. rewrite logged_logged.
    match goal with |- context [logged ?l s] =>
      destruct (IH (logged l s)) as [lg Hlg] end.
    + intros q Hq. cbn [fs logged]. apply H. right. exact Hq.
    + rewrite Hlg, logged_logged. eexists. reflexivity.
Qed.

Lemma fetch_and_download_cases (overwrite : bool) (fuel : nat) (path : ustring)
    (s : state) (b : bool) (s' : state) :
  fetch_and_download site unescape unicode_lower overwrite fuel path s
    = (Ok b, s') ->
  b = true
  /\ exists products s1,
       fetch_products site unescape unicode_lower fuel 50 s = (Ok products, s1)
       /\ for_each (fun p => download_product site overwrite p path) products
            (logged [LogRecord INFO "Found %d products in your Apress account..."
                       [ArgInt (Z.of_nat (length products))]] s1)
          = (Ok tt, s').
Proof.
  unfold fetch_and_download, bind at 1. intros H.
  destruct (fetch_products site unescape unicode_lower fuel 50 s)
    as [[products| |] s1]; try discriminate.
  unfold bind at 1 in H. cbn [logger] in H. unfold bind in H.
  match type of H with context [for_each ?f ?l ?st] =>
    destruct (for_each f l st) as [[[]| |] s2] eqn:E end; try discriminate.
  injection H as <- <-. split; [reflexivity|]. exists products, s1.
  split; [reflexivity|exact E].
Qed.

Lemma start_false_cases (overwrite : bool) (fuel : nat) (path : ustring)
    (s : state) :
  (fst (start site unescape unicode_lower overwrite fuel path s) = Ok false
   <-> exists e, fst (ensure_path path s) = Raise (OSError e))
  /\ (fst (start site unescape unicode_lower overwrite fuel path s) = Ok false ->
      let s' := snd (start site unescape unicode_lower overwrite fuel path s) in
      sent s' = sent s /\ written s' = written s
      /\ log s' = log s ++ [LogRecord ERROR "Could not create / use path: %s"
                              [ArgStr path]]).
Proof.
  unfold start.
  destruct (ensure_path_effects path s) as (H1 & H2 & H3 & _).
  destruct (ensure_path path s) as [[[]|e|] s1] eqn:E; cbn [fst snd] in *.
  - assert (Hno : fst (fetch_and_download site unescape unicode_lower overwrite
                         fuel path s1) <> Ok false).
    { destruct (fetch_and_download site unescape unicode_lower overwrite fuel
                  path s1) as [[b| |] s2] eqn:F; try discriminate.
      apply fetch_and_download_cases in F as [-> _]. discriminate. }
    split; [split; [intros H; contradiction|intros [e He]; discriminate]|].
    intros H. contradiction.
  - destruct e as [e| | |]; cbn.
    + split; [split; [eexists; reflexivity|reflexivity]|].
      intros _. rewrite H1, H2, H3. repeat split.
    + split; [split; [discriminate|intros [e' He]; discriminate]|discriminate].
    + split; [split; [discriminate|intros [e' He]; discriminate]|discriminate].
    + split; [split; [discriminate|intros [e' He]; discriminate]|discriminate].
  - split; [split; [discriminate|intros [e' He]; discriminate]|discriminate].
Qed.

(** X15: [start] returns false exactly when the destination is not a
    directory and cannot be made; it then has logged the error and has
    sent no request and written nothing. *)
Theorem start_false_iff (overwrite : bool) (fuel : nat) (path : ustring)
    (s : state) :
  (fst (start site unescape unicode_lower overwrite fuel path s) = Ok false
   <-> exists e, fst (ensure_path path s) = Raise (OSError e))
  /\ (fst (start site unescape unicode_lower overwrite fuel path s) = Ok false ->
      let s' := snd (start site unescape unicode_lower overwrite fuel path s) in
      sent s' = sent s /\ written s' = written s
      /\ log s' = log s ++ [LogRecord ERROR "Could not create / use path: %s"
                              [ArgStr path]]).
Proof. apply start_false_cases. Qed.

(** X16: When [start] returns true, the catalogue was fetched without an
    exception and, for every product of it and every format of the
    product, the target file is on the disk at the end. *)
Theorem start_true_files (overwrite : bool) (fuel : nat) (path : ustring)
    (s s' : state) :
  start site unescape unicode_lower overwrite fuel path s = (Ok true, s') ->
  exists products s1,
    fetch_products site unescape unicode_lower fuel 50
      (snd (ensure_path path s)) = (Ok products, s1)
    /\ forall p extension url,
         p ∈ products -> links p !! extension = Some url ->
         isfile (fs s') (product_filename path p ++ extension) = true.
Proof.
  unfold start. intros H.
  destruct (ensure_path path s) as [[[]|e|] s0]; cbn [snd].
  - apply fetch_and_download_cases in H as [_ (products & s1 & Hf & Hd)].
    exists products, s1. split; [exact Hf|].
    intros p extension url Hp Hl.
    destruct (download_products_done _ _ _ _ _ Hd p Hp) as [_ Hfiles].
    apply elem_of_map_to_list in Hl. apply (Hfiles _ Hl).
  - destruct e as [e| | |]; discriminate.
  - discriminate.
Qed.

(** X17: On a destination that is a directory, with overwrite off, a second
    [start] right after one that returned true returns true as well and
    only asks for the listing again: the disk and the writes are as the
    first run left them, and no download request is sent. *)
Theorem start_twice (fuel : nat) (path : ustring) (s0 s1 : state) :
  isdir (fs s0) path = true ->
  start site unescape unicode_lower false fuel path s0 = (Ok true, s1) ->
  exists s2 k,
    start site unescape unicode_lower false fuel path s1 = (Ok true, s2)
    /\ fs s2 = fs s1 /\ written s2 = written s1
    /\ sent s2 = sent s1 ++ map (listing_request 50) (page_numbers 1 k).
Proof.
  intros Hdir H. unfold start in H. rewrite (ensure_path_present _ _ Hdir) in H.
  apply fetch_and_download_cases in H as [_ (products & sa & Hf & Hd)].
  destruct (fetch_loop_uniform site unescape unicode_lower fuel 50 1 [])
    as (r & k & lg & _ & Hrun).
  unfold fetch_products in Hf. rewrite Hrun in Hf. injection Hf as -> <-.
  assert (Hpath0 : fs s0 !! path = Some Dir).
  { unfold isdir in Hdir. destruct (fs s0 !! path) as [[d|]|];
      congruence. }
  pose proof (download_products_done _ _ _ _ _ Hd) as Hdone.
  pose proof (download_products_preserve false products path
                (logged [LogRecord INFO
                           "Found %d products in your Apress account..."
                           [ArgInt (Z.of_nat (length products))]]
                   (logged lg (requested (map (listing_request 50)
                                            (page_numbers 1 k)) s0)))) as K.
  rewrite Hd in K. cbn [snd fs logged requested] in K.
  assert (Hpath1 : fs s1 !! path = Some Dir) by (apply (K path), Hpath0).
  assert (Hdir1 : isdir (fs s1) path = true)
    by (unfold isdir; rewrite Hpath1; reflexivity).
  unfold start. rewrite (ensure_path_present _ _ Hdir1).
  unfold fetch_and_download, bind at 1. unfold fetch_products. rewrite Hrun.
  unfold bind at 1. cbn [logger]. unfold bind.
  match goal with |- context [for_each ?f products ?st] =>
    destruct (download_products_present products path st) as [lg2 Hlg2] end.
  - intros p Hp. cbn [fs logged requested].
    destruct (Hdone p Hp) as [Hd1 Hf1]. split; [|exact Hf1].
    apply Hd1. cbn [fs logged requested]. exact Hpath0.
  - rewrite Hlg2. eexists _, k. split; [reflexivity|].
    cbn [fs sent written logged requested]. repeat split.
Qed.

End RunFacts.

Lemma os_mkdir_frame (p : ustring) (s t : state) :
  fs t = fs s ->
  fst (os_mkdir p t) = fst (os_mkdir p s)
  /\ fs (snd (os_mkdir p t)) = fs (snd (os_mkdir p s)).
Proof.
  intros H. unfold os_mkdir. rewrite H.
  destruct (mkdir (fs s) p); cbn; auto.
Qed.

(** Whether directories can be made depends on the disk alone. *)
Lemma os_makedirs_n_frame (n : nat) (p : ustring) (s t : state) :
  fs t = fs s ->
  fst (os_makedirs_n n p t) = fst (os_makedirs_n n p s)
  /\ fs (snd (os_makedirs_n n p t)) = fs (snd (os_makedirs_n n p s)).
Proof.
  revert p s t. induction n as [|n IH]; intros p s t H.
  - cbn [os_makedirs_n]. destruct (parent p) as [[|c q]|];
      apply os_mkdir_frame, H.
  - rewrite !os_makedirs_n_unfold. destruct (parent p) as [[|c q]|];
      try (apply os_mkdir_frame, H).
    rewrite H. destruct (bool_decide (is_Some (fs s !! (c :: q))));
      [apply os_mkdir_frame, H|].
    destruct (IH (c :: q) s t H) as [Hr Hfs].
    destruct (os_makedirs_n n (c :: q) t) as [rt t1],
             (os_makedirs_n n (c :: q) s) as [rs s1].
    cbn [fst snd] in *. subst rt.
    destruct rs as [[]|e|]; [apply os_mkdir_frame, Hfs| |auto].
    destruct e as [[]| | |]; cbn; auto. apply os_mkdir_frame, Hfs.
Qed.

Lemma ensure_path_frame (path : ustring) (s t : state) :
  fs t = fs s -> fst (ensure_path path t) = fst (ensure_path path s).
Proof.
  intros H. unfold ensure_path, bind, os_path_isdir. rewrite H.
  destruct (isdir (fs s) path); cbn [negb]; [reflexivity|].
  apply os_makedirs_n_frame, H.
Qed.

Section MainFacts.

Variable site : request -> response.
Variable unescape : ustring -> ustring.
Variable unicode_lower : N -> N.

(** The fields posted by [login]. *)
Lemma login_effect (username password : ustring) (s : state) :
  let auth := [(u "login[username]", username);
               (u "login[password]", password); (u "send", [])] in
  exists b lg,
    login site username password s =
      (Ok b, logged lg (requested [GET login_url true false;
                                   POST loginPost_url auth] s))
    /\ (b = false <-> resp_url (site (POST loginPost_url auth)) = login_url).
Proof.
  cbv zeta. unfold login, bind. cbn [logger send fs sent log written].
  unfold logged, requested. cbn [fs sent log written].
  destruct (decide (resp_url (site (POST loginPost_url
              [(u "login[username]", username);
               (u "login[password]", password); (u "send", [])])) = login_url))
    as [E|E].
  - exists false. eexists. cbn [logger ret fs sent log written].
    rewrite <- !app_assoc. split; [reflexivity|]. split; auto.
  - destruct (decide (resp_url (site (POST loginPost_url
              [(u "login[username]", username);
               (u "login[password]", password); (u "send", [])])) = account_url)).
    + exists true. eexists. cbn [ret]. rewrite <- !app_assoc.
      split; [reflexivity|]. split; [discriminate|intros; contradiction].
    + exists true. eexists. cbn [logger ret fs sent log written].
      rewrite <- !app_assoc.
      split; [reflexivity|]. split; [discriminate|intros; contradiction].
Qed.

(** X18: When the site sends the credential POST back to the login page,
    [main] ends with exit status 3: it has sent the two requests of
    [login] and no other, and the disk and the writes are as they
    were. *)
Theorem main_login_failure (a : arguments) (typed : ustring) (fuel : nat)
    (s : state) :
  let auth := [(u "login[username]", arg_username a);
               (u "login[password]", password_of a typed); (u "send", [])] in
  resp_url (site (POST loginPost_url auth)) = login_url ->
  exists s',
    main site unescape unicode_lower a typed fuel s = (Ok (3%Z, None), s')
    /\ sent s' = sent s ++ [GET login_url true false; POST loginPost_url auth]
    /\ fs s' = fs s /\ written s' = written s.
Proof.
  cbv zeta. intros H. unfold main, bind at 1. cbn [logger].
  unfold bind at 1.
  match goal with |- context [login site ?us ?pw ?st] =>
    destruct (login_effect us pw st) as (b & lg & Hrun & Hb) end.
  rewrite Hrun. apply Hb in H. subst b. unfold bind. cbn [logger ret].
  eexists. split; [reflexivity|]. cbn [fs sent log written logged requested].
  repeat split.
Qed.

Lemma main_debug_effects (a : arguments) (typed : ustring) (fuel : nat)
    (s : state) :
  arg_debug a = true ->
  exists r s' k,
    main site unescape unicode_lower a typed fuel s = (r, s')
    /\ fs s' = fs s /\ written s' = written s
    /\ (k <= fuel)%nat
    /\ sent s' = sent s
         ++ [GET login_url true false;
             POST loginPost_url
               [(u "login[username]", arg_username a);
                (u "login[password]", password_of a typed); (u "send", [])]]
         ++ map (listing_request 50) (page_numbers 1 k).
Proof.
  intros Hdebug.
  destruct (login_effect (arg_username a) (password_of a typed)
              (logged [LogRecord CRITICAL " " []] s)) as (b & lg & Hrun & _).
  destruct (fetch_loop_uniform site unescape unicode_lower fuel 50 1 [])
    as (r & k & lg2 & Hk & Hf).
  destruct b.
  - destruct r as [products| |]; eexists _, _, k;
      (split;
       [unfold main, bind at 1; cbn [logger]; unfold bind at 1;
        unfold logged at 1 in Hrun; cbn [app] in Hrun; rewrite Hrun, Hdebug;
        unfold bind at 1, fetch_products; rewrite Hf;
        unfold bind; cbn [logger ret]; reflexivity|]);
      cbn [fs sent log written logged requested];
      rewrite <- !app_assoc; repeat split; exact Hk.
  - eexists _, _, 0%nat.
    split;
      [unfold main, bind at 1; cbn [logger]; unfold bind at 1;
       unfold logged at 1 in Hrun; cbn [app] in Hrun; rewrite Hrun;
       unfold bind; cbn [logger ret]; reflexivity|].
    cbn [fs sent log written logged requested page_numbers map app].
    repeat split. lia.
Qed.

(** X19: In debug mode [main] leaves the disk alone and writes nothing,
    however it ends: after the two requests of [login] it asks only for
    listing pages 1, 2, ..., k, for some k. *)
Theorem main_debug_reads_only (a : arguments) (typed : ustring) (fuel : nat)
    (s : state) :
  arg_debug a = true ->
  let auth := [(u "login[username]", arg_username a);
               (u "login[password]", password_of a typed); (u "send", [])] in
  let s' := snd (main site unescape unicode_lower a typed fuel s) in
  fs s' = fs s /\ written s' = written s
  /\ exists k, (k <= fuel)%nat
       /\ sent s' = sent s
            ++ [GET login_url true false; POST loginPost_url auth]
            ++ map (listing_request 50) (page_numbers 1 k).
Proof.
  intros Hdebug. cbv zeta.
  destruct (main_debug_effects a typed fuel s Hdebug)
    as (r & s' & k & -> & Hfs & Hwr & Hk & Hsent).
  cbn [snd]. split; [exact Hfs|]. split; [exact Hwr|].
  exists k. split; [exact Hk|exact Hsent].
Qed.

Ltac exit_cases :=
  repeat match goal with
    | H : _ /\ _ |- _ => destruct H
    | H : is_Some None |- _ => destruct H as [? H]; discriminate H
    end;
  try discriminate; try tauto; try congruence.

(** X20: When [main] ends normally its exit status is 3 exactly when the
    credential POST came back to the login page; 2 exactly when the
    login passed, debug mode is off and the destination is not a
    directory and cannot be made; and 0 otherwise.  The products are
    printed exactly in debug mode after a login that passed. *)
Theorem main_exit_status (a : arguments) (typed : ustring) (fuel : nat)
    (s s' : state) (status : Z) (printed : option (list product)) :
  main site unescape unicode_lower a typed fuel s
    = (Ok (status, printed), s') ->
  let auth := [(u "login[username]", arg_username a);
               (u "login[password]", password_of a typed); (u "send", [])] in
  let rejected := resp_url (site (POST loginPost_url auth)) = login_url in
  let unusable := exists e, fst (ensure_path (arg_path a) s)
                            = Raise (OSError e) in
  (status = 3%Z <-> rejected)
  /\ (status = 2%Z <-> ~ rejected /\ arg_debug a = false /\ unusable)
  /\ (status = 0%Z \/ status = 2%Z \/ status = 3%Z)
  /\ (is_Some printed <-> ~ rejected /\ arg_debug a = true).
Proof.
  cbv zeta. unfold main, bind at 1. cbn [logger]. unfold bind at 1.
  match goal with |- context [login site ?us ?pw ?st] =>
    destruct (login_effect us pw st) as (b & lg & Hrun & Hb) end.
  rewrite Hrun. intros H. destruct b.
  - assert (Hnot : ~ resp_url (site (POST loginPost_url
                       [(u "login[username]", arg_username a);
                        (u "login[password]", password_of a typed);
                        (u "send", [])])) = login_url).
    { intros E. apply Hb in E. discriminate. }
    destruct (arg_debug a) eqn:Hdebug.
    + unfold bind at 1 in H.
      destruct (fetch_products site unescape unicode_lower fuel 50 _)
        as [[products| |] s1]; try discriminate.
      unfold bind in H. cbn [logger ret] in H. injection H as <- <- _.
      repeat split; intros; exit_cases; eexists; reflexivity.
    + unfold bind in H.
      match type of H with context [start _ _ _ _ _ _ ?st] =>
        pose proof (proj1 (start_false_cases site unescape unicode_lower
                             (arg_overwrite a) fuel (arg_path a) st)) as Hst;
        rewrite (ensure_path_frame (arg_path a) s st eq_refl) in Hst;
        destruct (start site unescape unicode_lower (arg_overwrite a) fuel
                    (arg_path a) st) as [[started| |] s1] end;
        try discriminate.
      cbn [fst] in Hst. destruct started; injection H as <- <- _;
        repeat split; intros; exit_cases;
        try (apply Hst; reflexivity);
        exfalso;
        match goal with Hun : ex _ |- _ => apply Hst in Hun; discriminate Hun end.
  - assert (Hrej : resp_url (site (POST loginPost_url
                       [(u "login[username]", arg_username a);
                        (u "login[password]", password_of a typed);
                        (u "send", [])])) = login_url)
      by (apply Hb; reflexivity).
    unfold bind in H. cbn [logger ret] in H. injection H as <- <- _.
    repeat split; intros; exit_cases.
Qed.

End MainFacts.

Section LoginMore.

Variable site : request -> response.

(** X21: The log of [login] shows of the password only its length: two
    passwords of the same length that the site answers from the same
    final URL leave the same log records. *)
Theorem login_log_masks_password (username pw1 pw2 : ustring) (s : state) :
  length pw1 = length pw2 ->
  resp_url (site (POST loginPost_url
                    [(u "login[username]", username);
                     (u "login[password]", pw1); (u "send", [])]))
  = resp_url (site (POST loginPost_url
                      [(u "login[username]", username);
                       (u "login[password]", pw2); (u "send", [])])) ->
  log (snd (login site username pw1 s)) = log (snd (login site username pw2 s)).
Proof.
  intros Hlen Hurl. unfold login, bind. cbn [logger send fs sent log written].
  rewrite Hlen, Hurl.
  destruct (decide (resp_url (site (POST loginPost_url
              [(u "login[username]", username);
               (u "login[password]", pw2); (u "send", [])])) = login_url));
    [reflexivity|].
  destruct (decide (resp_url (site (POST loginPost_url
              [(u "login[username]", username);
               (u "login[password]", pw2); (u "send", [])])) = account_url));
    reflexivity.
Qed.

End LoginMore.

(* ------------------------------------------------------------------ *)
(** ** The further theorems at work on the samples *)


Lemma stream_file_unopenable_witness :
  exists s',
    stream_file two_pages (u "http://x/a") (u "ebooks/a.pdf") fresh
      = (Raise (IOError ENOENT), s')
    /\ sent s' = sent fresh ++ [GET (u "http://x/a") true true]
    /\ fs s' = fs fresh /\ written s' = written fresh.
Proof.
  apply (stream_file_unopenable two_pages (u "http://x/a") (u "ebooks/a.pdf")
           fresh ENOENT).
  vm_compute; reflexivity.
Defined.

Lemma download_product_requests_witness :
  let s' := snd (download_product two_pages false primer (u "ebooks")
                   fresh_ebooks) in
  let todo := wanted false (fs fresh_ebooks)
                (product_filename (u "ebooks") primer)
                (map_to_list (links primer)) in
  sent s' = sent fresh_ebooks ++ map (fun item => GET (snd item) true true) todo
  /\ written s' = written fresh_ebooks
       ++ flat_map (fun item =>
                      map (pair (product_filename (u "ebooks") primer
                                 ++ fst item))
                        (List.filter nonempty
                           (resp_chunks (two_pages (GET (snd item) true true)))))
            todo.
Proof.
  apply (download_product_requests two_pages false primer (u "ebooks")
           fresh_ebooks).
  vm_compute; reflexivity.
Defined.


Lemma download_product_same_name_witness :
  let s1 := snd (download_product two_pages false primer (u "ebooks")
                   fresh_ebooks) in
  download_product two_pages false primer_reprint (u "ebooks") s1 =
    (Ok tt,
     logged (downloading_record primer_reprint
             :: map (fun item =>
                       skip_record (product_filename (u "ebooks") primer_reprint
                                    ++ fst item))
                  (map_to_list (links primer_reprint))) s1).
Proof.
  apply (download_product_same_name two_pages false primer primer_reprint
           (u "ebooks") fresh_ebooks).
  - vm_compute; reflexivity.
  - intros extension [url H]. unfold primer_reprint in H. cbn [links] in H.
    apply lookup_insert_Some in H as [[<- _]|[_ H]].
    + vm_compute. eexists. reflexivity.
    + rewrite lookup_empty in H. discriminate.
  - vm_compute; reflexivity.
Defined.

Lemma fetch_products_never_ends_witness :
  fetch_products endless same_text same_letter 3 50 fresh =
    (Diverge, fetched endless 50 (page_numbers 1 3) fresh).
Proof.
  apply (fetch_products_never_ends endless same_text same_letter 50 3 fresh).
  intros q _. split; reflexivity.
Defined.

Lemma fetch_products_missing_value_witness :
  exists s',
    fetch_products valueless same_text same_letter 5 50 fresh
      = (Raise (KeyError "value"), s')
    /\ sent s' = sent fresh ++ map (listing_request 50) (page_numbers 1 1).
Proof.
  apply (fetch_products_missing_value valueless same_text same_letter 50 1 5
           fresh (TableRow (Some (u "Pro Git")) [OptionTag (u "PDF") None])
           (u "Pro Git") (OptionTag (u "PDF") None)).
  - lia.
  - constructor.
  - vm_compute. left.
  - reflexivity.
  - left.
  - reflexivity.
  - lia.
Defined.

Lemma parse_row_last_wins_witness :
  exists lnk,
    parse_row same_text same_letter twice_pdf_row [] fresh =
      (Ok ([] ++ [Product (same_text (u "Pro Git")) lnk]),
       logged (row_log twice_pdf_row) fresh)
    /\ lnk !! lower same_letter (opt_text (OptionTag (u "pdf")
                                             (Some (u "http://x/c"))))
       = Some (u "http://x/c").
Proof.
  apply (parse_row_last_wins same_text same_letter twice_pdf_row (u "Pro Git")
           [OptionTag (u "PDF") (Some (u "http://x/a"))] []
           (OptionTag (u "pdf") (Some (u "http://x/c")))).
  - reflexivity.
  - reflexivity.
  - reflexivity.
  - reflexivity.
  - constructor.
Defined.

Lemma listing_url_inj_witness : 3%Z = 3%Z.
Proof. apply (listing_url_inj 50 3 3). reflexivity. Defined.

Lemma start_false_iff_witness :
  fst (start two_pages same_text same_letter false 5 (u "f/x") fresh_file)
    = Ok false.
Proof.
  apply (proj1 (start_false_iff two_pages same_text same_letter false 5
                  (u "f/x") fresh_file)).
  exists ENOTDIR. vm_compute; reflexivity.
Defined.

Lemma start_true_files_witness :
  exists products s1,
    fetch_products two_pages same_text same_letter 5 50
      (snd (ensure_path (u "ebooks") fresh)) = (Ok products, s1)
    /\ forall p extension url,
         p ∈ products -> links p !! extension = Some url ->
         isfile (fs (snd (start two_pages same_text same_letter false 5
                            (u "ebooks") fresh)))
           (product_filename (u "ebooks") p ++ extension) = true.
Proof.
  apply (start_true_files two_pages same_text same_letter false 5 (u "ebooks")
           fresh).
  vm_compute; reflexivity.
Defined.

Lemma start_twice_witness :
  let s1 := snd (start two_pages same_text same_letter false 5 (u "ebooks")
                   fresh_ebooks) in
  exists s2 k,
    start two_pages same_text same_letter false 5 (u "ebooks") s1
      = (Ok true, s2)
    /\ fs s2 = fs s1 /\ written s2 = written s1
    /\ sent s2 = sent s1 ++ map (listing_request 50) (page_numbers 1 k).
Proof.
  apply (start_twice two_pages same_text same_letter 5 (u "ebooks")
           fresh_ebooks).
  - vm_compute; reflexivity.
  - vm_compute; reflexivity.
Defined.

Lemma main_login_failure_witness :
  exists s',
    main rejecting same_text same_letter plain_arguments (u "typed") 5 fresh
      = (Ok (3%Z, None), s')
    /\ sent s' = sent fresh
         ++ [GET login_url true false;
             POST loginPost_url
               [(u "login[username]", arg_username plain_arguments);
                (u "login[password]",
                 password_of plain_arguments (u "typed"));
                (u "send", [])]]
    /\ fs s' = fs fresh /\ written s' = written fresh.
Proof.
  apply (main_login_failure rejecting same_text same_letter plain_arguments
           (u "typed") 5 fresh).
  reflexivity.
Defined.

Lemma main_debug_reads_only_witness :
  let s' := snd (main two_pages same_text same_letter debug_arguments
                   (u "typed") 5 fresh) in
  fs s' = fs fresh /\ written s' = written fresh
  /\ exists k, (k <= 5)%nat
       /\ sent s' = sent fresh
            ++ [GET login_url true false;
                POST loginPost_url
                  [(u "login[username]", arg_username debug_arguments);
                   (u "login[password]",
                    password_of debug_arguments (u "typed"));
                   (u "send", [])]]
            ++ map (listing_request 50) (page_numbers 1 k).
Proof.
  apply (main_debug_reads_only two_pages same_text same_letter debug_arguments
           (u "typed") 5 fresh).
  reflexivity.
Defined.

Lemma main_exit_status_witness :
  let auth := [(u "login[username]", arg_username plain_arguments);
               (u "login[password]", password_of plain_arguments (u "typed"));
               (u "send", [])] in
  let rejected := resp_url (two_pages (POST loginPost_url auth)) = login_url in
  let unusable := exists e, fst (ensure_path (arg_path plain_arguments)
                                   fresh_file)
                            = Raise (OSError e) in
  (0%Z = 3%Z <-> rejected)
  /\ (0%Z = 2%Z <-> ~ rejected /\ arg_debug plain_arguments = false /\ unusable)
  /\ (0%Z = 0%Z \/ 0%Z = 2%Z \/ 0%Z = 3%Z)
  /\ (is_Some (@None (list product)) <->
      ~ rejected /\ arg_debug plain_arguments = true).
Proof.
  apply (main_exit_status two_pages same_text same_letter plain_arguments
           (u "typed") 5 fresh_file
           (snd (main two_pages same_text same_letter plain_arguments
                   (u "typed") 5 fresh_file))).
  vm_compute; reflexivity.
Defined.

(** What the samples give when run: a destination under a file ends the
    script with status 2, and the password typed at the prompt is used
    when none is given. *)
Example main_on_samples :
  fst (main two_pages same_text same_letter
         (Arguments (u "me") false false false (u "f/x") "info" "html.parser"
            None) (u "typed") 5 fresh_file) = Ok (2%Z, None)
  /\ password_of debug_arguments (u "typed") = u "typed"
  /\ password_of plain_arguments (u "typed") = u "pw".
Proof. repeat split; vm_compute; reflexivity. Qed.

Lemma login_log_masks_password_witness :
  log (snd (login front_page (u "me") (u "pw") fresh))
  = log (snd (login front_page (u "me") (u "xy") fresh)).
Proof.
  apply (login_log_masks_password front_page (u "me") (u "pw") (u "xy") fresh);
    reflexivity.
Defined.
